(** * Object tracker and processing loop: a shallow embedding

    The definitions below follow [src/tracker.py] (class [ObjectTracker]) and
    the processing loop of [main] in [src/main.py].

    Modelling choices:
    - Python integers (ids, pixel coordinates, frame counters) are [Z].
    - Times and IoU values are Python floats in the source; they are modelled
      as exact rationals [Q].  Bounding boxes are tuples of [int] (see
      [perform_object_detection]), so the IoU is the quotient of two
      integers; Python rounds that quotient correctly, hence it is exactly
      0 or 1 when the rational is, and its comparison with the threshold 0.5
      used by [main] agrees with the rational one for areas below 2^53.
    - [tracked_objects] is a Python dict; iteration follows insertion order
      and the matcher depends on that order, so it is an association list
      whose keys are kept unique by [dict_set].
    - [matched_ids] is a Python set of ids: a [gset Z]. *)

From Stdlib Require Import ZArith QArith Qminmax Qround Lia.
From stdpp Require Import base decidable option list gmap strings.

Local Open Scope Z_scope.
#[local] Set Warnings "-clear-no-such-hyp".

(** ** Data model *)

(** A bounding box [(xmin, ymin, xmax, ymax)]. *)
Definition Box : Type := Z * Z * Z * Z.

(** One element of the [detections] list: [{'bbox': ..., 'label': ...}]. *)
Record Detection : Type := mkDetection {
  det_bbox : Box;
  det_label : string
}.

(** The value stored under each id of [tracked_objects]. *)
Record ObjInfo : Type := mkObjInfo {
  obj_id : Z;
  obj_label : string;
  obj_bbox : Box;
  first_seen : Q;
  last_seen : Q;
  total_time : Q;
  missing_frames : Z;
  missing : bool
}.

Record ObjectTracker : Type := mkObjectTracker {
  tracked_objects : list (Z * ObjInfo);
  next_object_id : Z;
  iou_threshold : Q;
  first_frame_time : option Q;
  selected_objects : list string;
  missing_threshold : Z
}.

(** ** Insertion-ordered dictionaries *)

Section Dict.
Context {V : Type}.

Definition keys (d : list (Z * V)) : list Z := d.*1.

Fixpoint dict_get (k : Z) (d : list (Z * V)) : option V :=
  match d with
  | [] => None
  | (k', v) :: d' => if Z.eqb k' k then Some v else dict_get k d'
  end.

(** [d[k] = v]: an existing key keeps its position, a new key goes last. *)
Fixpoint dict_set (k : Z) (v : V) (d : list (Z * V)) : list (Z * V) :=
  match d with
  | [] => [(k, v)]
  | (k', v') :: d' =>
      if Z.eqb k' k then (k', v) :: d' else (k', v') :: dict_set k v d'
  end.

(** In-place mutation of the value stored under [k]. *)
Fixpoint dict_alter (f : V -> V) (k : Z) (d : list (Z * V)) : list (Z * V) :=
  match d with
  | [] => []
  | (k', v') :: d' =>
      if Z.eqb k' k then (k', f v') :: d' else (k', v') :: dict_alter f k d'
  end.
End Dict.

(** ** [ObjectTracker.__init__] *)

Definition __init__ (iou_thr : Q) (selected : option (list string))
    (missing_thr : Z) : ObjectTracker :=
  {| tracked_objects := [];
     next_object_id := 1;
     iou_threshold := iou_thr;
     first_frame_time := None;
     selected_objects := default [] selected;
     missing_threshold := missing_thr |}.

(** ** [ObjectTracker._iou]

    [_iou] is the exact quotient of the two areas; the code returns this
    quotient rounded to the nearest double.  Rounding is monotone and
    leaves 0, 1/2 and 1 as they are, so every statement made about [_iou]
    below is either an equation with 0 or 1, a comparison with such a
    bound, or carries the bound on the areas under which the two agree. *)

Definition inter_area (box1 box2 : Box) : Z :=
  let '(x1, y1, x2, y2) := box1 in
  let '(x1g, y1g, x2g, y2g) := box2 in
  let xi1 := Z.max x1 x1g in
  let yi1 := Z.max y1 y1g in
  let xi2 := Z.min x2 x2g in
  let yi2 := Z.min y2 y2g in
  Z.max (xi2 - xi1) 0 * Z.max (yi2 - yi1) 0.

Definition box_area (b : Box) : Z :=
  let '(x1, y1, x2, y2) := b in (x2 - x1) * (y2 - y1).

Definition union_area (box1 box2 : Box) : Z :=
  box_area box1 + box_area box2 - inter_area box1 box2.

Definition _iou (box1 box2 : Box) : Q :=
  if 0 <? union_area box1 box2
  then (inject_Z (inter_area box1 box2) / inject_Z (union_area box1 box2))%Q
  else 0%Q.

(** [x > y] on numbers. *)
Definition Qgtb (x y : Q) : bool := negb (Qle_bool x y).

(** ** [ObjectTracker._find_matching_object] *)

(** The condition tested on each entry of the scan. *)
Definition is_candidate (thr : Q) (bbox : Box) (label : string)
    (o : ObjInfo) : bool :=
  negb (missing o) && String.eqb (obj_label o) label
    && Qgtb (_iou bbox (obj_bbox o)) thr.

Fixpoint scan_objects (thr : Q) (bbox : Box) (label : string)
    (d : list (Z * ObjInfo)) : option Z :=
  match d with
  | [] => None
  | (k, o) :: d' =>
      if is_candidate thr bbox label o then Some k
      else scan_objects thr bbox label d'
  end.

Definition _find_matching_object (tr : ObjectTracker) (bbox : Box)
    (label : string) : option Z :=
  scan_objects (iou_threshold tr) bbox label (tracked_objects tr).

(** ** [ObjectTracker.update] *)

Definition set_tracked_objects (d : list (Z * ObjInfo)) (tr : ObjectTracker)
    : ObjectTracker :=
  {| tracked_objects := d;
     next_object_id := next_object_id tr;
     iou_threshold := iou_threshold tr;
     first_frame_time := first_frame_time tr;
     selected_objects := selected_objects tr;
     missing_threshold := missing_threshold tr |}.

Definition init_first_frame_time (frame_time : Q) (tr : ObjectTracker)
    : ObjectTracker :=
  {| tracked_objects := tracked_objects tr;
     next_object_id := next_object_id tr;
     iou_threshold := iou_threshold tr;
     first_frame_time :=
       match first_frame_time tr with
       | None => Some frame_time
       | Some t0 => Some t0
       end;
     selected_objects := selected_objects tr;
     missing_threshold := missing_threshold tr |}.

(** The four assignments of the match branch. *)
Definition refresh (bbox : Box) (frame_time : Q) (o : ObjInfo) : ObjInfo :=
  {| obj_id := obj_id o;
     obj_label := obj_label o;
     obj_bbox := bbox;
     first_seen := first_seen o;
     last_seen := frame_time;
     total_time := (frame_time - first_seen o)%Q;
     missing_frames := 0;
     missing := missing o |}.

(** The record built in the no-match branch. *)
Definition new_object (new_id : Z) (label : string) (bbox : Box)
    (frame_time : Q) : ObjInfo :=
  {| obj_id := new_id;
     obj_label := label;
     obj_bbox := bbox;
     first_seen := frame_time;
     last_seen := frame_time;
     total_time := 0%Q;
     missing_frames := 0;
     missing := false |}.

(** What one detection of the first loop resolves to. *)
Inductive Resolution : Type :=
  | Skipped
  | Matched (matched_obj_id : Z)
  | Created (new_id : Z).

Definition resolve (tr : ObjectTracker) (detection : Detection) : Resolution :=
  let bbox := det_bbox detection in
  let label := det_label detection in
  if bool_decide (label ∉ selected_objects tr) then Skipped
  else match _find_matching_object tr bbox label with
       | Some matched_obj_id => Matched matched_obj_id
       | None => Created (next_object_id tr)
       end.

(** Body of the first loop: the tracker and [matched_ids] after one
    detection. *)
Definition process_detection (frame_time : Q)
    (st : ObjectTracker * gset Z) (detection : Detection)
    : ObjectTracker * gset Z :=
  let '(tr, matched_ids) := st in
  let bbox := det_bbox detection in
  let label := det_label detection in
  match resolve tr detection with
  | Skipped => (tr, matched_ids)
  | Matched matched_obj_id =>
      (set_tracked_objects
         (dict_alter (refresh bbox frame_time) matched_obj_id
            (tracked_objects tr)) tr,
       {[matched_obj_id]} ∪ matched_ids)
  | Created new_id =>
      ({| tracked_objects :=
            dict_set new_id (new_object new_id label bbox frame_time)
              (tracked_objects tr);
          next_object_id := next_object_id tr + 1;
          iou_threshold := iou_threshold tr;
          first_frame_time := first_frame_time tr;
          selected_objects := selected_objects tr;
          missing_threshold := missing_threshold tr |},
       {[new_id]} ∪ matched_ids)
  end.

Definition detection_loop (frame_time : Q) (st : ObjectTracker * gset Z)
    (detections : list Detection) : ObjectTracker * gset Z :=
  fold_left (process_detection frame_time) detections st.

(** The ids the detections of one loop resolve to, in order. *)
Fixpoint resolutions (frame_time : Q) (st : ObjectTracker * gset Z)
    (detections : list Detection) : list Resolution :=
  match detections with
  | [] => []
  | detection :: rest =>
      resolve st.1 detection
        :: resolutions frame_time (process_detection frame_time st detection) rest
  end.

(** Body of the second loop, on one entry of the table. *)
Definition age_object (missing_thr : Z) (matched_ids : gset Z)
    (entry : Z * ObjInfo) : Z * ObjInfo :=
  let '(k, o) := entry in
  if bool_decide (k ∉ matched_ids) && negb (missing o) then
    let n := missing_frames o + 1 in
    (k, {| obj_id := obj_id o;
           obj_label := obj_label o;
           obj_bbox := obj_bbox o;
           first_seen := first_seen o;
           last_seen := last_seen o;
           total_time := total_time o;
           missing_frames := n;
           missing := if missing_thr <=? n then true else missing o |})
  else if bool_decide (k ∈ matched_ids) && (0 <? missing_frames o) then
    (k, {| obj_id := obj_id o;
           obj_label := obj_label o;
           obj_bbox := obj_bbox o;
           first_seen := first_seen o;
           last_seen := last_seen o;
           total_time := total_time o;
           missing_frames := 0;
           missing := missing o |})
  else (k, o).

(** [matched_ids] at the end of the first loop of [update]. *)
Definition matched_ids_of (tr : ObjectTracker) (detections : list Detection)
    (frame_time : Q) : gset Z :=
  (detection_loop frame_time (init_first_frame_time frame_time tr, ∅)
     detections).2.

Definition update (tr : ObjectTracker) (detections : list Detection)
    (frame_time : Q) : ObjectTracker :=
  let tr0 := init_first_frame_time frame_time tr in
  let '(tr1, matched_ids) := detection_loop frame_time (tr0, ∅) detections in
  set_tracked_objects
    (age_object (missing_threshold tr1) matched_ids <$> tracked_objects tr1)
    tr1.

(** A run of the tracker: one [update] call per processed frame. *)
Definition run (tr : ObjectTracker) (frames : list (list Detection * Q))
    : ObjectTracker :=
  fold_left (fun tr f => update tr (f.1) (f.2)) frames tr.

(** ** [ObjectTracker.get_detailed_summary] *)

Record SummaryEntry : Type := mkSummaryEntry {
  s_id : Z;
  s_first_seen : Q;
  s_last_seen : Q;
  s_total_time : Q;
  s_missing_frames : Z;
  s_missing : bool
}.

(** The entry appended for one object, given the epoch. *)
Definition summary_entry (epoch : Q) (o : ObjInfo) : SummaryEntry :=
  {| s_id := obj_id o;
     s_first_seen := (first_seen o - epoch)%Q;
     s_last_seen := (last_seen o - epoch)%Q;
     s_total_time := total_time o;
     s_missing_frames := missing_frames o;
     s_missing := missing o |}.

(** [summary[label].append(e)], after [summary[label] = []] for a new label. *)
Fixpoint summary_append (label : string) (e : SummaryEntry)
    (summary : list (string * list SummaryEntry))
    : list (string * list SummaryEntry) :=
  match summary with
  | [] => [(label, [e])]
  | (l, es) :: rest =>
      if String.eqb l label then (l, es ++ [e]) :: rest
      else (l, es) :: summary_append label e rest
  end.

Definition summary_get (label : string)
    (summary : list (string * list SummaryEntry)) : list SummaryEntry :=
  default [] (snd <$> List.find (fun le => String.eqb le.1 label) summary).

(** [None] stands for the [TypeError] of subtracting [None] from a number,
    raised when an object is reported while [first_frame_time] is unset. *)
Definition get_detailed_summary (tr : ObjectTracker)
    : option (list (string * list SummaryEntry)) :=
  fold_left
    (fun acc entry =>
       match acc, first_frame_time tr with
       | Some summary, Some epoch =>
           Some (summary_append (obj_label entry.2)
                   (summary_entry epoch entry.2) summary)
       | _, _ => None
       end)
    (tracked_objects tr) (Some []).

(** ** The processing loop of [main]

    One iteration of [while time.time() < end_time], as a function of the
    clock reading [current_time] and of the loop's variables.  The queue is
    the content the consumer observes during the iteration; the detector is
    a parameter.  Drawing, [imshow] and the periodic print do not change
    the variables modelled here. *)

Section ProcessingLoop.
Variables Model Frame : Type.
Variable perform_object_detection : Model -> Frame -> list Detection.
Variable model : Model.
Variable start_time : Q.

Definition catchup_interval : Q := 1 # 2.

(** A queue element [(frame_count, timestamp, frame)]. *)
Definition Envelope : Type := Z * Q * Frame.

Record LoopState : Type := mkLoopState {
  frame_queue : list Envelope;
  last_catchup_time : Q;
  (** [frame_count, timestamp, frame]: unbound until the first [get]. *)
  current : option Envelope;
  processed_frame_count : Z;
  tracker : ObjectTracker
}.

Inductive IterResult : Type :=
  | Idle (st : LoopState)        (* [sleep(0.01); continue] *)
  | Processed (st : LoopState)   (* reached [tracker.update] *)
  | Aborted (st : LoopState).    (* [UnboundLocalError] on [timestamp] *)

(** [while not frame_queue.empty(): ... = frame_queue.get(); skipped += 1] *)
Fixpoint drain_queue (q : list Envelope) (cur : option Envelope)
    (skipped_frames : Z) : option Envelope * Z :=
  match q with
  | [] => (cur, skipped_frames)
  | e :: q' => drain_queue q' (Some e) (skipped_frames + 1)
  end.

(** The statements after the [if]/[else], from [frame_time = ...] on. *)
Definition process_frame (st : LoopState) : IterResult :=
  match current st with
  | None => Aborted st
  | Some (frame_count, timestamp, frame) =>
      let frame_time := (timestamp - start_time)%Q in
      let detections := perform_object_detection model frame in
      Processed
        {| frame_queue := frame_queue st;
           last_catchup_time := last_catchup_time st;
           current := current st;
           processed_frame_count := processed_frame_count st + 1;
           tracker := update (tracker st) detections frame_time |}
  end.

Definition loop_iteration (current_time : Q) (st : LoopState) : IterResult :=
  if Qle_bool catchup_interval (current_time - last_catchup_time st) then
    let '(cur, skipped_frames) :=
      drain_queue (frame_queue st) (current st) 0 in
    process_frame
      {| frame_queue := [];
         last_catchup_time :=
           if 0 <? skipped_frames then current_time
           else last_catchup_time st;
         current := cur;
         processed_frame_count := processed_frame_count st;
         tracker := tracker st |}
  else
    match frame_queue st with
    | [] => Idle st
    | e :: q' =>
        process_frame
          {| frame_queue := q';
             last_catchup_time := last_catchup_time st;
             current := Some e;
             processed_frame_count := processed_frame_count st;
             tracker := tracker st |}
    end.
End ProcessingLoop.

Arguments frame_queue {Frame} _.
Arguments last_catchup_time {Frame} _.
Arguments current {Frame} _.
Arguments processed_frame_count {Frame} _.
Arguments tracker {Frame} _.
Arguments mkLoopState {Frame} _ _ _ _ _.
Arguments Idle {Frame} _.
Arguments Processed {Frame} _.
Arguments Aborted {Frame} _.

(** ** Vocabulary of the statements *)

(** The table of a tracker started by [__init__] holds the ids
    [1, 2, ..., n] in creation order, and the next id is [n + 1]. *)
Definition ids_in_sequence (tr : ObjectTracker) : Prop :=
  keys (tracked_objects tr)
    = Z.of_nat <$> seq 1 (length (tracked_objects tr))
  /\ next_object_id tr = Z.of_nat (length (tracked_objects tr)) + 1.

(** Every record carries its own key and an allowed label. *)
Definition objects_well_formed (tr : ObjectTracker) : Prop :=
  Forall (fun e => obj_id e.2 = e.1 /\ obj_label e.2 ∈ selected_objects tr)
    (tracked_objects tr).

Definition tracker_inv (tr : ObjectTracker) : Prop :=
  ids_in_sequence tr /\ objects_well_formed tr.

(** Object [i] is matched by no detection in any frame of the run. *)
Fixpoint unmatched_run (i : Z) (tr : ObjectTracker)
    (frames : list (list Detection * Q)) : Prop :=
  match frames with
  | [] => True
  | f :: rest =>
      (i ∉ matched_ids_of tr (f.1) (f.2))
      /\ unmatched_run i (update tr (f.1) (f.2)) rest
  end.

Definition resolved_id (r : Resolution) : option Z :=
  match r with
  | Skipped => None
  | Matched i => Some i
  | Created i => Some i
  end.

Definition created_id (r : Resolution) : option Z :=
  match r with
  | Created i => Some i
  | _ => None
  end.

(** The resolutions of the detections of one [update] call. *)
Definition update_resolutions (tr : ObjectTracker)
    (detections : list Detection) (frame_time : Q) : list Resolution :=
  resolutions frame_time (init_first_frame_time frame_time tr, ∅) detections.

(** Two boxes share no region of positive area. *)
Definition boxes_disjoint (a b : Box) : Prop :=
  let '(x1, y1, x2, y2) := a in
  let '(x1g, y1g, x2g, y2g) := b in
  x2 <= x1g \/ x2g <= x1 \/ y2 <= y1g \/ y2g <= y1.

Definition positive_size (a : Box) : Prop :=
  let '(x1, y1, x2, y2) := a in x1 < x2 /\ y1 < y2.

(** Every id of [matched_ids] names an Active object whose missing streak
    is 0. *)
Definition fresh_match (st : ObjectTracker * gset Z) : Prop :=
  forall i, i ∈ st.2 ->
    exists o, dict_get i (tracked_objects st.1) = Some o
      /\ missing o = false /\ missing_frames o = 0.

(** ** Scenarios used to exercise the statements *)

Definition car (b : Box) : Detection := mkDetection b "car".
Definition box_a : Box := (0, 0, 10, 10).
Definition box_b : Box := (0, 0, 10, 9).

(** A tracker for cars that retires an object after 2 missed frames. *)
Definition demo_tracker : ObjectTracker :=
  __init__ (1 # 2) (Some ["car"%string]) 2.

(** A car seen once at time 0, then absent for two frames. *)
Definition retire_frames : list (list Detection * Q) :=
  [([car box_a], 0%Q); ([], 1%Q); ([], 2%Q)].

(** The record of that car once retired. *)
Definition retired_car : ObjInfo :=
  {| obj_id := 1; obj_label := "car"; obj_bbox := box_a;
     first_seen := 0%Q; last_seen := 0%Q; total_time := 0%Q;
     missing_frames := 2; missing := true |}.

(** The same car coming back at the same place after its retirement. *)
Definition reappear_frames : list (list Detection * Q) :=
  retire_frames ++ [([car box_a], 3%Q)].

(** The condition of the matcher's scan, spelled out: [o] is Active, has
    the detection's label and overlaps it beyond the threshold. *)
Definition candidate (tr : ObjectTracker) (bbox : Box) (label : string)
    (o : ObjInfo) : Prop :=
  missing o = false /\ obj_label o = label
  /\ (iou_threshold tr < _iou bbox (obj_bbox o))%Q.

(** Two cars side by side, and a detection that overlaps both, the second
    more than the first. *)
Definition box_left : Box := (0, 0, 10, 10).
Definition box_right : Box := (5, 0, 15, 10).
Definition box_between : Box := (3, 0, 13, 10).
Definition two_cars : ObjectTracker :=
  run demo_tracker [([car box_left; car box_right], 0%Q)].
Definition left_car : ObjInfo := new_object 1 "car" box_left 0.
Definition right_car : ObjInfo := new_object 2 "car" box_right 0.

(** Boxes far from every other scenario box, and a box of width 0. *)
Definition box_far : Box := (20, 20, 30, 30).
Definition box_flat : Box := (4, 0, 4, 10).

(** [first_seen] is written at creation only. *)
Definition first_seen_kept (tr : ObjectTracker) (t : Q)
    (st : ObjectTracker * gset Z) : Prop :=
  forall k o', dict_get k (tracked_objects st.1) = Some o' ->
    match dict_get k (tracked_objects tr) with
    | Some o => first_seen o' = first_seen o
    | None => first_seen o' = t
    end.

(** A detector that reads the detections off a frame given as the list of
    objects visible in it, and a loop that has processed two frames: a car
    at time 0, then an empty frame at time 1, which is still held by the
    variables [frame_count, timestamp, frame]; the queue is empty. *)
Definition demo_detector (_ : unit) (frame : list Detection) : list Detection :=
  frame.

Definition stale_state : LoopState (list Detection) :=
  {| frame_queue := [];
     last_catchup_time := 1;
     current := Some (2, 1%Q, []);
     processed_frame_count := 2;
     tracker := run demo_tracker [([car box_a], 0%Q); ([], 1%Q)] |}.

(** ** Vocabulary of the further properties *)

(** Object [i] is matched, or created, in every frame of the run. *)
Fixpoint matched_run (i : Z) (tr : ObjectTracker)
    (frames : list (list Detection * Q)) : Prop :=
  match frames with
  | [] => True
  | f :: rest =>
      (i ∈ matched_ids_of tr (f.1) (f.2))
      /\ matched_run i (update tr (f.1) (f.2)) rest
  end.

(** The missing streak of [o] lies between 0 and the threshold, and [o] is
    Retired exactly when the streak has reached the threshold. *)
Definition streak_in_range (thr : Z) (o : ObjInfo) : Prop :=
  0 <= missing_frames o <= thr
  /\ (missing o = true <-> missing_frames o = thr).

Definition streaks_in_range (st : ObjectTracker * gset Z) : Prop :=
  forall k o, dict_get k (tracked_objects st.1) = Some o ->
    streak_in_range (missing_threshold st.1) o.

(** The stored duration of an object is the span between its two times. *)
Definition times_consistent (e : Z * ObjInfo) : Prop :=
  (total_time e.2 == last_seen e.2 - first_seen e.2)%Q.

(** An object was first seen no later than last seen, and last seen no
    later than [t]. *)
Definition seen_before (t : Q) (e : Z * ObjInfo) : Prop :=
  (first_seen e.2 <= last_seen e.2)%Q /\ (last_seen e.2 <= t)%Q.

(** The frame times of a run never go back, starting from [t]. *)
Fixpoint times_from (t : Q) (frames : list (list Detection * Q)) : Prop :=
  match frames with
  | [] => True
  | f :: rest => (t <= f.2)%Q /\ times_from (f.2) rest
  end.

Definition times_nondecreasing (frames : list (list Detection * Q)) : Prop :=
  match frames with
  | [] => True
  | f :: rest => times_from (f.2) rest
  end.

(** ** The loops of [main] over several iterations *)

Section Loops.
Variables Model Frame : Type.
Variable perform_object_detection : Model -> Frame -> list Detection.
Variable model : Model.
Variable start_time : Q.

(** The [while] loop of [main] over successive clock readings, while the
    queue receives no new frame and no key is pressed.  The flag tells
    whether the loop was ended by the error of an unbound [timestamp]. *)
Fixpoint iterate (clock : list Q) (st : LoopState Frame)
    : LoopState Frame * bool :=
  match clock with
  | [] => (st, false)
  | current_time :: rest =>
      match loop_iteration Model Frame perform_object_detection model
              start_time current_time st with
      | Idle st' => iterate rest st'
      | Processed st' => iterate rest st'
      | Aborted st' => (st', true)
      end
  end.

(** The arguments of the [tracker.update] call made for a queue element. *)
Definition update_args (e : Envelope Frame) : list Detection * Q :=
  (perform_object_detection model (e.2), ((e.1).2 - start_time)%Q).

(** One iteration of the loop of [capture_frames] for a frame read at
    clock reading [r.1], while nothing is taken from the queue: the frame
    is numbered and put last, and the oldest element is dropped when the
    queue holds more than 100.  [None]: [put] blocks on a queue that
    already holds its maximum of 1000 elements. *)
Definition capture_step (st : Z * list (Envelope Frame)) (r : Q * Frame)
    : option (Z * list (Envelope Frame)) :=
  let '(frame_count, q) := st in
  if 1000 <=? Z.of_nat (length q) then None
  else
    let frame_count := frame_count + 1 in
    let q := q ++ [(frame_count, r.1, r.2)] in
    Some (frame_count, if 100 <? Z.of_nat (length q) then tail q else q).

Fixpoint capture_loop (reads : list (Q * Frame))
    (st : Z * list (Envelope Frame)) : option (Z * list (Envelope Frame)) :=
  match reads with
  | [] => Some st
  | r :: rest =>
      match capture_step st r with
      | None => None
      | Some st' => capture_loop rest st'
      end
  end.

(** [capture_frames] on the frames read until the feed ends or the stop
    event is set: the final [frame_count] and queue. *)
Definition capture_frames (reads : list (Q * Frame))
    (frame_queue : list (Envelope Frame))
    : option (Z * list (Envelope Frame)) :=
  capture_loop reads (0, frame_queue).

(** The frames read, numbered from [frame_count + 1]. *)
Fixpoint stamp (frame_count : Z) (reads : list (Q * Frame))
    : list (Envelope Frame) :=
  match reads with
  | [] => []
  | r :: rest => (frame_count + 1, r.1, r.2) :: stamp (frame_count + 1) rest
  end.
End Loops.

Arguments capture_step {Frame} _ _.
Arguments capture_loop {Frame} _ _.
Arguments capture_frames {Frame} _ _.
Arguments stamp {Frame} _ _.

(** A loop that has not processed anything yet and finds two frames
    queued. *)
Definition backlog_state : LoopState (list Detection) :=
  {| frame_queue := [(1, 1%Q, [car box_a]); (2, 2%Q, [car box_b])];
     last_catchup_time := 0;
     current := None;
     processed_frame_count := 0;
     tracker := demo_tracker |}.

(** ** [detect_cameras] of [gui.py]

    [is_opened index] stands for [cv2.VideoCapture(index).isOpened()].  The
    [while] loop is run on a fuel; [None] means the fuel ran out. *)

Section DetectCameras.
Variable is_opened : Z -> bool.

Fixpoint detect_cameras_loop (fuel : nat) (max_cameras index : Z)
    (available_cameras : list Z) : option (list Z) :=
  match fuel with
  | O => None
  | S fuel' =>
      if Z.of_nat (length available_cameras) <? max_cameras then
        if is_opened index then
          let available_cameras := available_cameras ++ [index + 1] in
          let index := index + 1 in
          if max_cameras <=? index then Some available_cameras
          else detect_cameras_loop fuel' max_cameras index available_cameras
        else Some available_cameras
      else Some available_cameras
  end.

Definition detect_cameras_fuel (fuel : nat) (max_cameras : Z)
    : option (list Z) :=
  detect_cameras_loop fuel max_cameras 0 [].
End DetectCameras.

(** ** Post-processing of [perform_object_detection] ([detection.py])

    The model's output tensors are read as a list of rows: score, box
    [(ymin, xmin, ymax, xmax)] in fractions of the frame, and class.  The
    products [x * frame.shape[i]] are floats in the source and exact
    rationals here; rounding is monotone, so the order facts proved below
    do not depend on it. *)

Definition COCO_LABELS : list (Z * string) :=
  [(1, "person"); (2, "bicycle"); (3, "car"); (4, "motorcycle"); (6, "bus");
   (8, "truck"); (16, "bird"); (17, "cat"); (18, "dog")]%string.

(** [int(x)] on a number: truncation toward zero. *)
Definition py_int (x : Q) : Z := Z.quot (Qnum x) (Z.pos (Qden x)).

Record RawDetection : Type := mkRawDetection {
  detection_score : Q;
  detection_box : Q * Q * Q * Q;
  detection_class : Q
}.

(** Body of the loop over the rows; [shape] is [(frame.shape[0],
    frame.shape[1])], height and width. *)
Definition post_process_row (shape : Z * Z)
    (processed_detections : list Detection) (r : RawDetection)
    : list Detection :=
  if Qgtb (detection_score r) (1 # 2) then
    let '(ymin, xmin, ymax, xmax) := detection_box r in
    let class_id := py_int (detection_class r) in
    match dict_get class_id COCO_LABELS with
    | Some label =>
        if String.eqb label "" then processed_detections
        else
          processed_detections
            ++ [ {| det_bbox :=
                      (py_int (xmin * inject_Z shape.2),
                       py_int (ymin * inject_Z shape.1),
                       py_int (xmax * inject_Z shape.2),
                       py_int (ymax * inject_Z shape.1));
                    det_label := label |} ]
    | None => processed_detections
    end
  else processed_detections.

Definition post_process (shape : Z * Z) (rows : list RawDetection)
    : list Detection :=
  fold_left (post_process_row shape) rows [].

(** ** Check boxes of the GUIs ([gui.py], [video_file.py]) *)

Definition object_types : list string :=
  ["person"; "bicycle"; "car"; "motorcycle"; "bus"; "truck"; "bird"; "cat";
   "dog"]%string.

(** The variables behind the check boxes: "All Object Types" and one per
    object type, in the order of [object_types]. *)
Record CheckBoxes : Type := mkCheckBoxes {
  all_objects_var : bool;
  object_vars : list (string * bool)
}.

(** All boxes checked, as built by the loop over [object_types]. *)
Definition all_checked : CheckBoxes :=
  {| all_objects_var := true;
     object_vars := (fun obj_type => (obj_type, true)) <$> object_types |}.

(** [App.create_widgets] of [gui.py], given the list returned by
    [detect_cameras()].  [None]: no camera was detected and the method
    returned before building any check box ([all_objects_var] does not
    exist, [object_vars] is still empty, there is no Start button). *)
Definition create_widgets (available_cameras : list Z) : option CheckBoxes :=
  match available_cameras with
  | [] => None
  | _ :: _ => Some all_checked
  end.

(** [VideoFileApp.create_widgets] of [video_file.py], which detects no
    camera and always builds the check boxes. *)
Definition create_widgets_video_file : CheckBoxes := all_checked.

Definition toggle_all_objects (st : CheckBoxes) : CheckBoxes :=
  {| all_objects_var := all_objects_var st;
     object_vars :=
       (fun e => (e.1, all_objects_var st)) <$> object_vars st |}.

Definition update_all_objects_state (st : CheckBoxes) : CheckBoxes :=
  {| all_objects_var := forallb snd (object_vars st);
     object_vars := object_vars st |}.

(** The list [selected_objects] computed by [start_detection]. *)
Definition gui_selected_objects (st : CheckBoxes) : list string :=
  (filter (fun e => e.2 = true) (object_vars st)).*1.

(** A row whose box is given in fractions of the frame, corners in order. *)
Definition normalized_row (r : RawDetection) : Prop :=
  let '(ymin, xmin, ymax, xmax) := detection_box r in
  ((0 <= xmin)%Q /\ (xmin <= xmax)%Q /\ (xmax <= 1)%Q)
  /\ ((0 <= ymin)%Q /\ (ymin <= ymax)%Q /\ (ymax <= 1)%Q).

(** A pixel box with ordered corners that lies in a frame of [shape]. *)
Definition box_in_frame (shape : Z * Z) (b : Box) : Prop :=
  let '(x1, y1, x2, y2) := b in
  (0 <= x1 <= x2 /\ x2 <= shape.2) /\ (0 <= y1 <= y2 /\ y2 <= shape.1).

(** Every id of [matched_ids] names an object last seen at [t]. *)
Definition seen_now (t : Q) (st : ObjectTracker * gset Z) : Prop :=
  forall i, i ∈ st.2 ->
    exists o, dict_get i (tracked_objects st.1) = Some o /\ last_seen o = t.

(** The fields of a record other than the missing streak and flag. *)
Definition observation (o : ObjInfo) : Z * string * Box * Q * Q * Q :=
  (obj_id o, obj_label o, obj_bbox o, first_seen o, last_seen o, total_time o).

(** A loop that has just started: nothing taken from the queue yet. *)
Definition starting_state : LoopState (list Detection) :=
  {| frame_queue := [];
     last_catchup_time := 0;
     current := None;
     processed_frame_count := 0;
     tracker := demo_tracker |}.

(** * Properties *)

(** ** Dictionaries *)

Section DictFacts.
Context {V : Type}.
Implicit Types (d : list (Z * V)) (k : Z) (v : V).

Lemma keys_dict_alter f k d : keys (dict_alter f k d) = keys d.
Proof.
  induction d as [|[k' v'] d IH]; simpl; [done|].
  destruct (Z.eqb_spec k' k); simpl; [done|]. f_equal. apply IH.
Qed.

Lemma dict_get_alter f j k d :
  dict_get j (dict_alter f k d)
  = if decide (j = k) then f <$> dict_get k d else dict_get j d.
Proof.
  induction d as [|[k' v'] d IH]; simpl.
  - by destruct (decide (j = k)).
  - destruct (Z.eqb_spec k' k) as [->|Hne]; simpl.
    + destruct (decide (j = k)) as [->|Hjk].
      * by rewrite Z.eqb_refl.
      * destruct (Z.eqb_spec k j); [congruence | done].
    + rewrite IH. destruct (decide (j = k)) as [->|Hjk]; [|done].
      destruct (Z.eqb_spec k' k); [congruence | done].
Qed.

Lemma dict_get_None k d : k ∉ keys d -> dict_get k d = None.
Proof.
  induction d as [|[k' v'] d IH]; simpl; [done|].
  intros Hk. apply not_elem_of_cons in Hk as [Hne Hk].
  destruct (Z.eqb_spec k' k); [congruence | by apply IH].
Qed.

Lemma dict_get_Some k v d : dict_get k d = Some v -> (k, v) ∈ d.
Proof.
  induction d as [|[k' v'] d IH]; simpl; [done|].
  destruct (Z.eqb_spec k' k) as [->|Hne].
  - intros [= ->]. apply list_elem_of_here.
  - intros H. apply list_elem_of_further. by apply IH.
Qed.

Lemma dict_get_is_Some k d : k ∈ keys d -> is_Some (dict_get k d).
Proof.
  induction d as [|[k' v'] d IH]; simpl.
  - intros H. by apply elem_of_nil in H.
  - intros H. destruct (Z.eqb_spec k' k) as [->|Hne]; [by eexists|].
    apply IH. apply elem_of_cons in H as [->|H]; [congruence | done].
Qed.

Lemma dict_get_elem k v d : NoDup (keys d) -> (k, v) ∈ d -> dict_get k d = Some v.
Proof.
  induction d as [|[k' v'] d IH]; simpl.
  - intros _ H. by apply elem_of_nil in H.
  - intros Hnd H. apply NoDup_cons in Hnd as [Hk' Hnd].
    apply elem_of_cons in H as [[= -> ->]|H].
    + by rewrite Z.eqb_refl.
    + destruct (Z.eqb_spec k' k) as [->|Hne]; [|by apply IH].
      exfalso. apply Hk'. unfold keys.
      apply list_elem_of_fmap. by exists (k, v).
Qed.

Lemma dict_set_fresh k v d : k ∉ keys d -> dict_set k v d = d ++ [(k, v)].
Proof.
  induction d as [|[k' v'] d IH]; simpl; [done|].
  intros Hk. apply not_elem_of_cons in Hk as [Hne Hk].
  destruct (Z.eqb_spec k' k); [congruence|]. f_equal. by apply IH.
Qed.

Lemma keys_dict_set_present k v d : k ∈ keys d -> keys (dict_set k v d) = keys d.
Proof.
  induction d as [|[k' v'] d IH]; simpl.
  - intros H. by apply elem_of_nil in H.
  - intros H. destruct (Z.eqb_spec k' k) as [->|Hne]; simpl; [done|].
    f_equal. apply IH. apply elem_of_cons in H as [->|H]; [congruence | done].
Qed.

Lemma dict_get_set j k v d :
  dict_get j (dict_set k v d) = if decide (j = k) then Some v else dict_get j d.
Proof.
  induction d as [|[k' v'] d IH]; simpl.
  - destruct (decide (j = k)) as [->|Hjk].
    + by rewrite Z.eqb_refl.
    + destruct (Z.eqb_spec k j); [congruence | done].
  - destruct (Z.eqb_spec k' k) as [->|Hne]; simpl.
    + destruct (decide (j = k)) as [->|Hjk].
      * by rewrite Z.eqb_refl.
      * destruct (Z.eqb_spec k j); [congruence | done].
    + rewrite IH. destruct (decide (j = k)) as [->|Hjk]; [|done].
      destruct (Z.eqb_spec k' k); [congruence | done].
Qed.

(** Assignment never removes a key: the old keys are a prefix. *)
Lemma keys_dict_set_prefix k v d : keys d `prefix_of` keys (dict_set k v d).
Proof.
  destruct (decide (k ∈ keys d)) as [Hin|Hnin].
  - by rewrite keys_dict_set_present.
  - rewrite dict_set_fresh by done. unfold keys. rewrite fmap_app.
    by apply prefix_app_r.
Qed.
End DictFacts.

(** An invariant carried along a [fold_left]. *)
Lemma fold_left_inv {A B : Type} (P : A -> Prop) (f : A -> B -> A) l a :
  P a -> (forall a' b, P a' -> P (f a' b)) -> P (fold_left f l a).
Proof.
  intros Ha Hstep. revert a Ha.
  induction l as [|b l IH]; simpl; intros a Ha; [done|].
  apply IH. by apply Hstep.
Qed.

(** ** The scan of [_find_matching_object] *)

Lemma scan_objects_first thr bbox label pre k o post :
  Forall (fun e => is_candidate thr bbox label e.2 = false) pre ->
  is_candidate thr bbox label o = true ->
  scan_objects thr bbox label (pre ++ (k, o) :: post) = Some k.
Proof.
  induction pre as [|[k' o'] pre IH]; simpl; intros Hpre Ho.
  - by rewrite Ho.
  - apply Forall_cons in Hpre as [Ho' Hpre]. simpl in Ho'. rewrite Ho'.
    by apply IH.
Qed.

Lemma scan_objects_Some thr bbox label d k :
  scan_objects thr bbox label d = Some k ->
  exists o, (k, o) ∈ d /\ is_candidate thr bbox label o = true.
Proof.
  induction d as [|[k' o'] d IH]; simpl; [done|].
  destruct (is_candidate thr bbox label o') eqn:Ho'.
  - intros [= ->]. exists o'. split; [apply list_elem_of_here | done].
  - intros H. destruct (IH H) as (o & Hin & Ho).
    exists o. split; [by apply list_elem_of_further | done].
Qed.

Lemma scan_objects_None thr bbox label d :
  scan_objects thr bbox label d = None ->
  Forall (fun e => is_candidate thr bbox label e.2 = false) d.
Proof.
  induction d as [|[k' o'] d IH]; simpl; [by constructor|].
  destruct (is_candidate thr bbox label o') eqn:Ho'; [done|].
  intros H. constructor; [done | by apply IH].
Qed.

Lemma is_candidate_active thr bbox label o :
  is_candidate thr bbox label o = true -> missing o = false.
Proof.
  unfold is_candidate. destruct (missing o); [|done]. simpl. done.
Qed.

(** ** Configuration and keys along [update] *)

Lemma process_detection_config t st det :
  let st' := process_detection t st det in
  iou_threshold st'.1 = iou_threshold st.1
  /\ selected_objects st'.1 = selected_objects st.1
  /\ missing_threshold st'.1 = missing_threshold st.1
  /\ first_frame_time st'.1 = first_frame_time st.1.
Proof.
  destruct st as [tr m]. unfold process_detection.
  by destruct (resolve tr det).
Qed.

Lemma detection_loop_config t dets st :
  let st' := detection_loop t st dets in
  iou_threshold st'.1 = iou_threshold st.1
  /\ selected_objects st'.1 = selected_objects st.1
  /\ missing_threshold st'.1 = missing_threshold st.1
  /\ first_frame_time st'.1 = first_frame_time st.1.
Proof.
  simpl. unfold detection_loop.
  apply (fold_left_inv (fun st' =>
    iou_threshold st'.1 = iou_threshold st.1
    /\ selected_objects st'.1 = selected_objects st.1
    /\ missing_threshold st'.1 = missing_threshold st.1
    /\ first_frame_time st'.1 = first_frame_time st.1)); [done|].
  intros st' det (H1 & H2 & H3 & H4).
  destruct (process_detection_config t st' det) as (G1 & G2 & G3 & G4).
  rewrite G1, G2, G3, G4. done.
Qed.

Lemma update_unfold tr dets t :
  update tr dets t =
  let st := detection_loop t (init_first_frame_time t tr, ∅) dets in
  set_tracked_objects
    (age_object (missing_threshold st.1) st.2 <$> tracked_objects st.1) st.1.
Proof.
  unfold update.
  by destruct (detection_loop t (init_first_frame_time t tr, ∅) dets).
Qed.

Lemma update_config tr dets t :
  iou_threshold (update tr dets t) = iou_threshold tr
  /\ selected_objects (update tr dets t) = selected_objects tr
  /\ missing_threshold (update tr dets t) = missing_threshold tr.
Proof.
  rewrite update_unfold. simpl.
  destruct (detection_loop_config t dets (init_first_frame_time t tr, ∅))
    as (H1 & H2 & H3 & _).
  done.
Qed.

Lemma run_config tr frames :
  iou_threshold (run tr frames) = iou_threshold tr
  /\ selected_objects (run tr frames) = selected_objects tr
  /\ missing_threshold (run tr frames) = missing_threshold tr.
Proof.
  unfold run.
  apply (fold_left_inv (fun tr' =>
    iou_threshold tr' = iou_threshold tr
    /\ selected_objects tr' = selected_objects tr
    /\ missing_threshold tr' = missing_threshold tr)); [done|].
  intros tr' f (H1 & H2 & H3).
  destruct (update_config tr' (f.1) (f.2)) as (G1 & G2 & G3).
  rewrite G1, G2, G3. done.
Qed.

Lemma keys_age thr m d : keys (age_object thr m <$> d) = keys d.
Proof.
  unfold keys. rewrite <- list_fmap_compose. apply list_fmap_ext.
  intros _ [k o] _. simpl. unfold age_object.
  by repeat case_match.
Qed.

Lemma age_object_key thr m k o : (age_object thr m (k, o)).1 = k.
Proof. unfold age_object. by repeat case_match. Qed.

Lemma dict_get_age thr m k d :
  dict_get k (age_object thr m <$> d)
  = (fun o => (age_object thr m (k, o)).2) <$> dict_get k d.
Proof.
  induction d as [|[k' o'] d IH]; [done|].
  rewrite fmap_cons. pose proof (age_object_key thr m k' o') as Hk.
  destruct (age_object thr m (k', o')) as [k'' o''] eqn:E.
  cbn [fst] in Hk. subst k''. cbn [dict_get].
  destruct (Z.eqb_spec k' k) as [->|Hne]; [|apply IH].
  cbn [fmap option_fmap option_map]. by rewrite E.
Qed.

(** ** The invariant of trackers started by [__init__] *)

Lemma ids_in_sequence_bounds tr k :
  ids_in_sequence tr -> k ∈ keys (tracked_objects tr) ->
  1 <= k < next_object_id tr.
Proof.
  intros [Hkeys Hnext] Hk. rewrite Hkeys in Hk.
  apply list_elem_of_fmap in Hk as (n & -> & Hn).
  apply elem_of_seq in Hn. lia.
Qed.

Lemma ids_in_sequence_fresh tr :
  ids_in_sequence tr -> next_object_id tr ∉ keys (tracked_objects tr).
Proof.
  intros Hinv Hk. apply (ids_in_sequence_bounds _ _ Hinv) in Hk. lia.
Qed.

Lemma ids_in_sequence_NoDup tr :
  ids_in_sequence tr -> NoDup (keys (tracked_objects tr)).
Proof.
  intros [Hkeys _]. rewrite Hkeys.
  apply NoDup_fmap; [apply Nat2Z.inj' | apply NoDup_seq].
Qed.

Lemma Forall_dict_alter (P : Z * ObjInfo -> Prop) f k d :
  (forall o, P (k, o) -> P (k, f o)) ->
  Forall P d -> Forall P (dict_alter f k d).
Proof.
  intros Hf. induction d as [|[k' o'] d IH]; simpl; [done|].
  intros H. apply Forall_cons in H as [Ho' Hd].
  destruct (Z.eqb_spec k' k) as [->|Hne]; constructor; auto.
Qed.

Lemma resolve_allowed tr det :
  resolve tr det <> Skipped -> det_label det ∈ selected_objects tr.
Proof.
  unfold resolve. case_bool_decide as Hsel; [done|].
  by intros _.
Qed.

Lemma resolve_Created tr det n :
  resolve tr det = Created n -> n = next_object_id tr.
Proof.
  unfold resolve. case_bool_decide; [done|].
  destruct (_find_matching_object _ _ _); congruence.
Qed.

Lemma resolve_Matched tr det j :
  resolve tr det = Matched j ->
  exists o, (j, o) ∈ tracked_objects tr
    /\ is_candidate (iou_threshold tr) (det_bbox det) (det_label det) o = true.
Proof.
  unfold resolve. case_bool_decide; [done|].
  destruct (_find_matching_object _ _ _) as [j'|] eqn:E; [|done].
  intros [= ->]. by apply scan_objects_Some.
Qed.

Lemma process_detection_inv t st det :
  tracker_inv st.1 -> tracker_inv (process_detection t st det).1.
Proof.
  destruct st as [tr m]. simpl. intros [Hseq Hwf].
  unfold process_detection. destruct (resolve tr det) as [|j|n] eqn:Hres.
  - done.
  - simpl. split.
    + destruct Hseq as [Hkeys Hnext]. split; simpl.
      * rewrite keys_dict_alter, Hkeys. f_equal. f_equal.
        rewrite <- !(length_fmap fst). fold (keys (tracked_objects tr)).
        fold (keys (dict_alter (refresh (det_bbox det) t) j (tracked_objects tr))).
        by rewrite keys_dict_alter.
      * rewrite Hnext. f_equal. f_equal.
        rewrite <- !(length_fmap fst). fold (keys (tracked_objects tr)).
        fold (keys (dict_alter (refresh (det_bbox det) t) j (tracked_objects tr))).
        by rewrite keys_dict_alter.
    + unfold objects_well_formed. simpl. by apply Forall_dict_alter.
  - apply resolve_Created in Hres as Hn. subst n.
    assert (det_label det ∈ selected_objects tr) as Hsel
      by (apply resolve_allowed; congruence).
    pose proof (ids_in_sequence_fresh _ Hseq) as Hfresh.
    destruct Hseq as [Hkeys Hnext]. split.
    + split; simpl; rewrite dict_set_fresh by done.
      * unfold keys. rewrite fmap_app, length_app. simpl.
        rewrite Nat.add_1_r, seq_S, fmap_app. simpl.
        unfold keys in Hkeys. rewrite Hkeys. f_equal. f_equal. lia.
      * rewrite length_app. simpl. lia.
    + unfold objects_well_formed. simpl. rewrite dict_set_fresh by done.
      apply Forall_app. split; [done|]. by repeat constructor.
Qed.

Lemma detection_loop_inv t dets st :
  tracker_inv st.1 -> tracker_inv (detection_loop t st dets).1.
Proof.
  intros H. unfold detection_loop.
  apply (fold_left_inv (fun st' => tracker_inv st'.1)); [done|].
  intros st' det. apply process_detection_inv.
Qed.

Lemma init_first_frame_time_inv t tr :
  tracker_inv tr -> tracker_inv (init_first_frame_time t tr).
Proof. by intros [[H1 H2] H3]. Qed.

Lemma age_inv thr m tr :
  tracker_inv tr ->
  tracker_inv (set_tracked_objects (age_object thr m <$> tracked_objects tr) tr).
Proof.
  intros [[Hkeys Hnext] Hwf]. split; [split|]; simpl.
  - by rewrite keys_age, length_fmap.
  - by rewrite length_fmap.
  - unfold objects_well_formed. simpl. apply Forall_fmap.
    eapply Forall_impl; [exact Hwf|]. intros [k o] Ho. simpl in *.
    unfold age_object. by repeat case_match.
Qed.

Lemma update_inv tr dets t : tracker_inv tr -> tracker_inv (update tr dets t).
Proof.
  intros H. rewrite update_unfold. simpl. apply age_inv.
  apply detection_loop_inv. simpl. by apply init_first_frame_time_inv.
Qed.

Lemma init_inv iou_thr sel mthr : tracker_inv (__init__ iou_thr sel mthr).
Proof. split; [split|]; simpl; [done | done | constructor]. Qed.

Lemma run_inv tr frames : tracker_inv tr -> tracker_inv (run tr frames).
Proof.
  intros H. unfold run. apply fold_left_inv; [done|].
  intros tr' f. apply update_inv.
Qed.

(** ** Keys are never removed *)

Lemma process_detection_keys t st det :
  keys (tracked_objects st.1)
    `prefix_of` keys (tracked_objects (process_detection t st det).1).
Proof.
  destruct st as [tr m]. unfold process_detection.
  destruct (resolve tr det); simpl.
  - done.
  - by rewrite keys_dict_alter.
  - apply keys_dict_set_prefix.
Qed.

Lemma detection_loop_keys t dets st :
  keys (tracked_objects st.1)
    `prefix_of` keys (tracked_objects (detection_loop t st dets).1).
Proof.
  unfold detection_loop.
  apply (fold_left_inv (fun st' =>
    keys (tracked_objects st.1) `prefix_of` keys (tracked_objects st'.1)));
    [done|].
  intros st' det H. etrans; [exact H|]. apply process_detection_keys.
Qed.

Lemma update_keys tr dets t :
  keys (tracked_objects tr)
    `prefix_of` keys (tracked_objects (update tr dets t)).
Proof.
  rewrite update_unfold. simpl. rewrite keys_age.
  apply (detection_loop_keys t dets (init_first_frame_time t tr, ∅)).
Qed.

(** ** Objects that no detection resolves to *)

Lemma process_detection_mono t st det :
  st.2 ⊆ (process_detection t st det).2.
Proof.
  destruct st as [tr m]. unfold process_detection.
  destruct (resolve tr det); simpl; set_solver.
Qed.

Lemma detection_loop_mono t dets st :
  st.2 ⊆ (detection_loop t st dets).2.
Proof.
  unfold detection_loop.
  apply (fold_left_inv (fun st' => st.2 ⊆ st'.2)); [done|].
  intros st' det H. etrans; [exact H|]. apply process_detection_mono.
Qed.

Lemma process_detection_other t st det i :
  i ∉ (process_detection t st det).2 ->
  dict_get i (tracked_objects (process_detection t st det).1)
  = dict_get i (tracked_objects st.1).
Proof.
  destruct st as [tr m]. unfold process_detection.
  destruct (resolve tr det) as [|j|n]; simpl; [done| |]; intros Hi.
  - rewrite dict_get_alter. destruct (decide (i = j)); [set_solver | done].
  - rewrite dict_get_set. destruct (decide (i = n)); [set_solver | done].
Qed.

Lemma detection_loop_other t dets st i :
  i ∉ (detection_loop t st dets).2 ->
  dict_get i (tracked_objects (detection_loop t st dets).1)
  = dict_get i (tracked_objects st.1).
Proof.
  revert st. induction dets as [|det dets IH]; intros st; [done|].
  unfold detection_loop in *. simpl. intros Hi.
  rewrite IH by done. apply process_detection_other.
  intros Hin. apply Hi.
  by apply (detection_loop_mono t dets (process_detection t st det)).
Qed.

(** ** Objects that some detection resolved to *)

Lemma dict_get_key {V : Type} k (v : V) d :
  dict_get k d = Some v -> k ∈ keys d.
Proof.
  intros H. apply dict_get_Some in H. unfold keys.
  apply list_elem_of_fmap. by exists (k, v).
Qed.

Lemma resolve_Matched_get tr det j :
  tracker_inv tr -> resolve tr det = Matched j ->
  exists o, dict_get j (tracked_objects tr) = Some o /\ missing o = false.
Proof.
  intros [Hseq _] Hres. apply resolve_Matched in Hres as (o & Hin & Hc).
  exists o. split.
  - apply dict_get_elem; [by apply ids_in_sequence_NoDup | done].
  - by apply is_candidate_active in Hc.
Qed.

Lemma process_detection_fresh_match t st det :
  tracker_inv st.1 -> fresh_match st ->
  fresh_match (process_detection t st det).
Proof.
  destruct st as [tr m]. simpl. intros Hinv Hm.
  unfold process_detection. destruct (resolve tr det) as [|j|n] eqn:Hres.
  - done.
  - destruct (resolve_Matched_get _ _ _ Hinv Hres) as (oj & Hj & Hact).
    intros i Hi. simpl in *. rewrite dict_get_alter.
    destruct (decide (i = j)) as [->|Hne].
    + rewrite Hj. simpl. by eexists.
    + apply Hm. apply elem_of_union in Hi as [Hi|Hi]; [|done].
      by apply elem_of_singleton in Hi.
  - apply resolve_Created in Hres as ->.
    intros i Hi. simpl in *. rewrite dict_get_set.
    destruct (decide (i = next_object_id tr)) as [->|Hne].
    + by eexists.
    + apply Hm. apply elem_of_union in Hi as [Hi|Hi]; [|done].
      by apply elem_of_singleton in Hi.
Qed.

Lemma detection_loop_fresh_match t dets st :
  tracker_inv st.1 -> fresh_match st ->
  fresh_match (detection_loop t st dets).
Proof.
  intros Hinv Hm. unfold detection_loop.
  apply (fold_left_inv (fun st' => tracker_inv st'.1 /\ fresh_match st'));
    [done|].
  intros st' det [H1 H2]. split.
  - by apply process_detection_inv.
  - by apply process_detection_fresh_match.
Qed.

(** After an [update] in which [i] was matched or created, [i] is Active
    with a missing streak of 0. *)
Lemma update_matched tr dets t i :
  tracker_inv tr -> i ∈ matched_ids_of tr dets t ->
  exists o, dict_get i (tracked_objects (update tr dets t)) = Some o
    /\ missing o = false /\ missing_frames o = 0.
Proof.
  intros Hinv Hi. rewrite update_unfold. simpl. unfold matched_ids_of in Hi.
  destruct (detection_loop_fresh_match t dets (init_first_frame_time t tr, ∅))
    with (i := i) as (o & Ho & Hact & Hmf).
  - simpl. by apply init_first_frame_time_inv.
  - intros j Hj. simpl in Hj. set_solver.
  - done.
  - rewrite dict_get_age, Ho. simpl. eexists. split; [done|].
    unfold age_object. rewrite Hact, Hmf.
    rewrite (bool_decide_eq_false_2 (i ∉ _)) by (intros H; by apply H).
    rewrite bool_decide_eq_true_2 by done. simpl. done.
Qed.

(** One unmatched frame for an Active object: the streak grows by one and
    the object retires when it reaches the threshold. *)
Lemma update_unmatched tr dets t i o :
  dict_get i (tracked_objects tr) = Some o -> missing o = false ->
  i ∉ matched_ids_of tr dets t ->
  exists o', dict_get i (tracked_objects (update tr dets t)) = Some o'
    /\ missing_frames o' = missing_frames o + 1
    /\ missing o' = (missing_threshold tr <=? missing_frames o + 1).
Proof.
  intros Ho Hact Hi. rewrite update_unfold. simpl. unfold matched_ids_of in Hi.
  rewrite dict_get_age, detection_loop_other by done. simpl. rewrite Ho. simpl.
  eexists. split; [done|].
  destruct (detection_loop_config t dets (init_first_frame_time t tr, ∅))
    as (_ & _ & -> & _). simpl.
  unfold age_object. rewrite Hact.
  rewrite bool_decide_eq_true_2 by done. simpl.
  split; [done|]. by destruct (_ <=? _).
Qed.

(** A Retired object is left alone by a frame in which nothing resolves
    to it. *)
Lemma update_unmatched_retired tr dets t i o :
  dict_get i (tracked_objects tr) = Some o -> missing o = true ->
  i ∉ matched_ids_of tr dets t ->
  dict_get i (tracked_objects (update tr dets t)) = Some o.
Proof.
  intros Ho Hret Hi. rewrite update_unfold. simpl. unfold matched_ids_of in Hi.
  rewrite dict_get_age, detection_loop_other by done. simpl. rewrite Ho. simpl.
  unfold age_object. rewrite Hret.
  rewrite (bool_decide_eq_false_2 (i ∈ _)) by done.
  by rewrite andb_false_r.
Qed.

(** ** Missing streaks *)

Lemma unmatched_streak i thr frames : forall tr o,
  missing_threshold tr = thr ->
  dict_get i (tracked_objects tr) = Some o -> missing o = false ->
  unmatched_run i tr frames ->
  (missing_frames o + Z.of_nat (length frames) < thr ->
   exists o', dict_get i (tracked_objects (run tr frames)) = Some o'
     /\ missing o' = false
     /\ missing_frames o' = missing_frames o + Z.of_nat (length frames))
  /\ (frames <> [] -> missing_frames o + Z.of_nat (length frames) = thr ->
      exists o', dict_get i (tracked_objects (run tr frames)) = Some o'
        /\ missing o' = true /\ missing_frames o' = thr).
Proof.
  induction frames as [|[dets t] frames IH]; intros tr o Hthr Ho Hact Hrun.
  - split; [|done]. intros _. exists o. simpl. split; [done|]. split; [done|lia].
  - destruct Hrun as [Hi Hrun]. simpl in Hi, Hrun.
    destruct (update_unmatched tr dets t i o Ho Hact Hi) as (o1 & Ho1 & Hmf & Hmiss).
    rewrite Hthr in Hmiss.
    assert (missing_threshold (update tr dets t) = thr) as Hthr'
      by (destruct (update_config tr dets t) as (_ & _ & ->); done).
    change (run tr ((dets, t) :: frames)) with (run (update tr dets t) frames).
    rewrite length_cons, Nat2Z.inj_succ.
    split.
    + intros Hlt.
      assert (missing o1 = false) as Hact1
        by (rewrite Hmiss; apply Z.leb_gt; lia).
      destruct (IH _ _ Hthr' Ho1 Hact1 Hrun) as [IH1 _].
      destruct IH1 as (o' & Ho' & Hact' & Hmf'); [lia|].
      exists o'. split; [done|]. split; [done|lia].
    + intros _ Heq. destruct frames as [|f frames].
      * simpl in *. exists o1. split; [done|]. split; [|lia].
        rewrite Hmiss. apply Z.leb_le. lia.
      * assert (missing o1 = false) as Hact1.
        { rewrite Hmiss. apply Z.leb_gt. rewrite length_cons in Heq. lia. }
        destruct (IH _ _ Hthr' Ho1 Hact1 Hrun) as [_ IH2].
        destruct IH2 as (o' & Ho' & Hret' & Hmf'); [done|lia|].
        by exists o'.
Qed.

(** ** Retired objects *)

Lemma process_detection_retired t st det i o :
  tracker_inv st.1 ->
  dict_get i (tracked_objects st.1) = Some o -> missing o = true ->
  i ∉ st.2 -> i ∉ (process_detection t st det).2.
Proof.
  destruct st as [tr m]. simpl. intros Hinv Ho Hret Hi.
  unfold process_detection. destruct (resolve tr det) as [|j|n] eqn:Hres; simpl.
  - done.
  - destruct (resolve_Matched_get _ _ _ Hinv Hres) as (oj & Hj & Hact).
    intros Hin. apply elem_of_union in Hin as [Hin|Hin]; [|done].
    apply elem_of_singleton in Hin. subst j. congruence.
  - apply resolve_Created in Hres as ->.
    intros Hin. apply elem_of_union in Hin as [Hin|Hin]; [|done].
    apply elem_of_singleton in Hin. subst i.
    apply dict_get_key in Ho. destruct Hinv as [Hseq _].
    by apply ids_in_sequence_fresh in Hseq.
Qed.

Lemma detection_loop_retired t dets st i o :
  tracker_inv st.1 ->
  dict_get i (tracked_objects st.1) = Some o -> missing o = true ->
  i ∉ st.2 -> i ∉ (detection_loop t st dets).2.
Proof.
  intros Hinv Ho Hret Hi. unfold detection_loop.
  apply (fold_left_inv (fun st' =>
    tracker_inv st'.1 /\ dict_get i (tracked_objects st'.1) = Some o
    /\ i ∉ st'.2)); [done|].
  intros st' det (H1 & H2 & H3).
  pose proof (process_detection_retired t st' det i o H1 H2 Hret H3) as H4.
  split; [by apply process_detection_inv|]. split; [|done].
  by rewrite process_detection_other.
Qed.

(** No detection of an [update] call resolves to a Retired object. *)
Lemma retired_unmatched tr dets t i o :
  tracker_inv tr ->
  dict_get i (tracked_objects tr) = Some o -> missing o = true ->
  i ∉ matched_ids_of tr dets t.
Proof.
  intros Hinv Ho Hret. unfold matched_ids_of.
  apply (detection_loop_retired t dets (init_first_frame_time t tr, ∅) i o);
    simpl; [by apply init_first_frame_time_inv | done | done |].
  apply not_elem_of_empty.
Qed.

Lemma update_retired tr dets t i o :
  tracker_inv tr ->
  dict_get i (tracked_objects tr) = Some o -> missing o = true ->
  dict_get i (tracked_objects (update tr dets t)) = Some o.
Proof.
  intros Hinv Ho Hret. apply update_unmatched_retired; [done|done|].
  by eapply retired_unmatched.
Qed.

Lemma run_retired frames : forall tr i o,
  tracker_inv tr ->
  dict_get i (tracked_objects tr) = Some o -> missing o = true ->
  dict_get i (tracked_objects (run tr frames)) = Some o.
Proof.
  induction frames as [|[dets t] frames IH]; intros tr i o Hinv Ho Hret; [done|].
  change (run tr ((dets, t) :: frames)) with (run (update tr dets t) frames).
  apply IH; [by apply update_inv | by apply update_retired | done].
Qed.

(** ** Resolutions of one call *)

Lemma process_detection_next_id t st det :
  next_object_id (process_detection t st det).1
  = match resolve st.1 det with
    | Created _ => next_object_id st.1 + 1
    | _ => next_object_id st.1
    end.
Proof.
  destruct st as [tr m]. unfold process_detection. simpl.
  by destruct (resolve tr det).
Qed.

Lemma created_ids_increasing t dets : forall st,
  Forall (fun n => next_object_id st.1 <= n)
    (omap created_id (resolutions t st dets))
  /\ NoDup (omap created_id (resolutions t st dets)).
Proof.
  induction dets as [|det dets IH]; intros st; simpl.
  - split; constructor.
  - destruct (IH (process_detection t st det)) as [Hge Hnd].
    rewrite process_detection_next_id in Hge.
    destruct (resolve st.1 det) as [|j|n] eqn:Hres; simpl; [done|done|].
    apply resolve_Created in Hres as ->. split.
    + constructor; [lia|]. eapply Forall_impl; [exact Hge|].
      intros n Hn. simpl in Hn. lia.
    + apply NoDup_cons. split; [|done]. intros Hin.
      rewrite Forall_forall in Hge. apply Hge in Hin. lia.
Qed.

Lemma resolutions_length t dets : forall st,
  length (resolutions t st dets) = length dets.
Proof.
  induction dets as [|det dets IH]; intros st; simpl; [done|].
  by rewrite IH.
Qed.

Lemma detection_loop_matched_ids t dets : forall st,
  (detection_loop t st dets).2
  = list_to_set (omap resolved_id (resolutions t st dets)) ∪ st.2.
Proof.
  induction dets as [|det dets IH]; intros st.
  - simpl. set_solver.
  - unfold detection_loop in *. simpl. rewrite IH.
    destruct st as [tr m]. unfold process_detection. simpl.
    destruct (resolve tr det); simpl; set_solver.
Qed.

(** ** Retirement *)

(** C3: an object matched (or created) in one [update] call and then
    unmatched in each call of [frames] is still Active, with a streak equal
    to the number of those calls, as long as that number is below
    [missing_threshold] (in particular after [missing_threshold - 1] frames);
    when the number equals [missing_threshold] the object is Retired. *)
Theorem retired_exactly_at_threshold iou_thr sel mthr frames0 dets0 t0 i frames :
  1 <= mthr ->
  i ∈ matched_ids_of (run (__init__ iou_thr sel mthr) frames0) dets0 t0 ->
  unmatched_run i
    (update (run (__init__ iou_thr sel mthr) frames0) dets0 t0) frames ->
  (Z.of_nat (length frames) < mthr ->
   exists o,
     dict_get i (tracked_objects
       (run (update (run (__init__ iou_thr sel mthr) frames0) dets0 t0) frames))
     = Some o
     /\ missing o = false /\ missing_frames o = Z.of_nat (length frames))
  /\ (Z.of_nat (length frames) = mthr ->
      exists o,
        dict_get i (tracked_objects
          (run (update (run (__init__ iou_thr sel mthr) frames0) dets0 t0) frames))
        = Some o
        /\ missing o = true).
Proof.
  intros Hthr Hi Hrun.
  set (tr := run (__init__ iou_thr sel mthr) frames0) in *.
  assert (tracker_inv tr) as Hinv by apply run_inv, init_inv.
  destruct (update_matched tr dets0 t0 i Hinv Hi) as (o & Ho & Hact & Hmf).
  assert (missing_threshold (update tr dets0 t0) = mthr) as Hm.
  { rewrite (proj2 (proj2 (update_config tr dets0 t0))). unfold tr.
    by rewrite (proj2 (proj2 (run_config (__init__ iou_thr sel mthr) frames0))). }
  destruct (unmatched_streak i mthr frames _ o Hm Ho Hact Hrun) as [H1 H2].
  rewrite Hmf in H1, H2. split.
  - intros Hlt. destruct H1 as (o' & Ho' & Hact' & Hmf'); [lia|].
    exists o'. split; [done|]. split; [done|lia].
  - intros Heq. destruct H2 as (o' & Ho' & Hret' & _); [|lia|by exists o'].
    intros ->. simpl in Heq. lia.
Qed.

Lemma retired_exactly_at_threshold_witness :
  1 <= 2
  /\ 1 ∈ matched_ids_of (run demo_tracker []) [car box_a] 0
  /\ unmatched_run 1 (update (run demo_tracker []) [car box_a] 0)
       [([], 1%Q); ([], 2%Q)]
  /\ ((Z.of_nat (length [([] : list Detection, 1%Q); ([], 2%Q)]) < 2 ->
       exists o,
         dict_get 1 (tracked_objects
           (run (update (run demo_tracker []) [car box_a] 0)
              [([], 1%Q); ([], 2%Q)])) = Some o
         /\ missing o = false
         /\ missing_frames o
            = Z.of_nat (length [([] : list Detection, 1%Q); ([], 2%Q)]))
      /\ (Z.of_nat (length [([] : list Detection, 1%Q); ([], 2%Q)]) = 2 ->
          exists o,
            dict_get 1 (tracked_objects
              (run (update (run demo_tracker []) [car box_a] 0)
                 [([], 1%Q); ([], 2%Q)])) = Some o
            /\ missing o = true)).
Proof.
  assert (1 <= 2) as H1 by lia.
  assert (1 ∈ matched_ids_of (run demo_tracker []) [car box_a] 0) as H2
    by (apply (bool_decide_unpack _); vm_compute; exact I).
  assert (unmatched_run 1 (update (run demo_tracker []) [car box_a] 0)
            [([], 1%Q); ([], 2%Q)]) as H3
    by (repeat split; apply (bool_decide_unpack _); vm_compute; exact I).
  split; [exact H1|]. split; [exact H2|]. split; [exact H3|].
  exact (retired_exactly_at_threshold (1 # 2) (Some ["car"%string]) 2
           [] [car box_a] 0%Q 1 [([], 1%Q); ([], 2%Q)] H1 H2 H3).
Defined.

(** C10: once an object of a tracker started by [__init__] is Retired, its
    whole record (bbox, first_seen, last_seen, total_time, missing_frames,
    missing, id, label) is the same after any further sequence of [update]
    calls. *)
Theorem retired_object_frozen iou_thr sel mthr frames i o more :
  dict_get i (tracked_objects (run (__init__ iou_thr sel mthr) frames)) = Some o ->
  missing o = true ->
  dict_get i
    (tracked_objects (run (run (__init__ iou_thr sel mthr) frames) more))
  = Some o.
Proof.
  intros Ho Hret. apply run_retired; [|done|done].
  apply run_inv, init_inv.
Qed.

Lemma retired_object_frozen_witness :
  dict_get 1 (tracked_objects (run demo_tracker retire_frames)) = Some retired_car
  /\ missing retired_car = true
  /\ dict_get 1
       (tracked_objects
          (run (run demo_tracker retire_frames)
             [([car box_a], 3%Q); ([car box_b], 4%Q)]))
     = Some retired_car.
Proof.
  assert (dict_get 1 (tracked_objects (run demo_tracker retire_frames))
          = Some retired_car) as H1 by (vm_compute; reflexivity).
  assert (missing retired_car = true) as H2 by reflexivity.
  split; [exact H1|]. split; [exact H2|].
  exact (retired_object_frozen (1 # 2) (Some ["car"%string]) 2 retire_frames
           1 retired_car [([car box_a], 3%Q); ([car box_b], 4%Q)] H1 H2).
Defined.

(** C5, as stated, fails: after object 1 has retired and the car has come
    back as object 2, a detection with the bbox and label of the retired
    object 1 matches object 2; no object is created. *)
Lemma retired_bbox_matches_successor :
  dict_get 1 (tracked_objects (run demo_tracker reappear_frames))
    = Some retired_car
  /\ missing retired_car = true
  /\ resolve (run demo_tracker reappear_frames)
       (mkDetection (obj_bbox retired_car) (obj_label retired_car))
     = Matched 2
  /\ resolve (run demo_tracker reappear_frames)
       (mkDetection (obj_bbox retired_car) (obj_label retired_car))
     <> Created (next_object_id (run demo_tracker reappear_frames))
  /\ keys (tracked_objects
             (update (run demo_tracker reappear_frames)
                [mkDetection (obj_bbox retired_car) (obj_label retired_car)] 4))
     = keys (tracked_objects (run demo_tracker reappear_frames)).
Proof.
  split; [vm_compute; reflexivity|]. split; [reflexivity|].
  split; [vm_compute; reflexivity|].
  split; [vm_compute; discriminate | vm_compute; reflexivity].
Qed.

(** ** Detections and objects within one call *)

(** C1, as stated, fails: with one car tracked, two overlapping car
    detections of the same frame both resolve to object 1. *)
Lemma two_detections_resolve_to_one_object :
  update_resolutions (run demo_tracker [([car box_a], 0%Q)])
    [car box_a; car box_b] 1
  = [Matched 1; Matched 1]
  /\ ~ NoDup (omap resolved_id
               (update_resolutions (run demo_tracker [([car box_a], 0%Q)])
                  [car box_a; car box_b] 1))
  /\ obj_bbox <$> dict_get 1
       (tracked_objects
          (update (run demo_tracker [([car box_a], 0%Q)])
             [car box_a; car box_b] 1))
     = Some box_b.
Proof.
  split; [vm_compute; reflexivity|]. split; [|vm_compute; reflexivity].
  replace (omap _ _) with [1; 1] by (vm_compute; reflexivity).
  intros Hnd. apply NoDup_cons in Hnd as [Hnin _].
  apply Hnin, list_elem_of_here.
Qed.

(** C1, amended: in one [update] call of a tracker started by [__init__]
    every detection has one resolution; the ids of the objects created in
    the call are pairwise distinct and were not in the table before the
    call; [matched_ids] is exactly the set of ids the detections resolved
    to.  Several detections may resolve to the same existing or newly
    created object. *)
Theorem created_ids_distinct iou_thr sel mthr frames dets t :
  length (update_resolutions (run (__init__ iou_thr sel mthr) frames) dets t)
    = length dets
  /\ NoDup (omap created_id
              (update_resolutions (run (__init__ iou_thr sel mthr) frames) dets t))
  /\ Forall (fun n => n ∉ keys (tracked_objects
                                  (run (__init__ iou_thr sel mthr) frames)))
       (omap created_id
          (update_resolutions (run (__init__ iou_thr sel mthr) frames) dets t))
  /\ matched_ids_of (run (__init__ iou_thr sel mthr) frames) dets t
     = list_to_set
         (omap resolved_id
            (update_resolutions (run (__init__ iou_thr sel mthr) frames) dets t)).
Proof.
  set (tr := run (__init__ iou_thr sel mthr) frames).
  assert (tracker_inv tr) as Hinv by apply run_inv, init_inv.
  unfold update_resolutions, matched_ids_of.
  destruct (created_ids_increasing t dets (init_first_frame_time t tr, ∅))
    as [Hge Hnd].
  split; [|split; [done|split]].
  - apply resolutions_length.
  - eapply Forall_impl; [exact Hge|]. intros n Hn Hin. simpl in Hn.
    apply (ids_in_sequence_bounds tr n) in Hin; [lia | apply Hinv].
  - rewrite detection_loop_matched_ids. simpl. set_solver.
Qed.

(** ** Matching policy *)

Lemma is_candidate_spec tr bbox label o :
  is_candidate (iou_threshold tr) bbox label o = true <-> candidate tr bbox label o.
Proof.
  unfold is_candidate, candidate, Qgtb. split.
  - intros H. apply andb_prop in H as [H H3]. apply andb_prop in H as [H1 H2].
    split; [by destruct (missing o)|]. split; [by apply String.eqb_eq|].
    apply Qnot_le_lt. intros Hle. apply Qle_bool_iff in Hle.
    by rewrite Hle in H3.
  - intros (H1 & H2 & H3). rewrite H1. simpl. apply andb_true_intro.
    split; [by apply String.eqb_eq|].
    destruct (Qle_bool _ _) eqn:E; [|done].
    apply Qle_bool_iff in E. by apply Qlt_not_le in H3.
Qed.

Lemma lookup_ids (p n : nat) (x : Z) :
  (Z.of_nat <$> seq 1 n) !! p = Some x -> x = Z.of_nat (1 + p).
Proof.
  rewrite list_lookup_fmap. destruct (seq 1 n !! p) as [y|] eqn:E; [|done].
  apply lookup_seq in E as [-> _]. simpl. by intros [= <-].
Qed.

(** In the id sequence 1, 2, ..., n an earlier position holds a smaller id. *)
Lemma ids_increasing (l1 l2 l3 : list Z) (a b : Z) (n : nat) :
  l1 ++ a :: l2 ++ b :: l3 = Z.of_nat <$> seq 1 n -> a < b.
Proof.
  intros H.
  assert ((Z.of_nat <$> seq 1 n) !! length l1 = Some a) as Ha.
  { rewrite <- H. by apply list_lookup_middle. }
  assert ((Z.of_nat <$> seq 1 n) !! length (l1 ++ a :: l2) = Some b) as Hb.
  { rewrite <- H.
    replace (l1 ++ a :: l2 ++ b :: l3) with ((l1 ++ a :: l2) ++ b :: l3)
      by (by rewrite <- app_assoc).
    by apply list_lookup_middle. }
  apply lookup_ids in Ha, Hb. rewrite length_app in Hb. simpl in Hb. lia.
Qed.

(** C4: when the first candidate of the table (in insertion order) is
    followed by another candidate, the matcher returns the first one,
    whatever the two IoU values; in a tracker started by [__init__] the
    object returned is the one created earlier (smaller id). *)
Theorem first_match_not_best_match tr bbox label pre k1 o1 mid k2 o2 post :
  tracked_objects tr = pre ++ (k1, o1) :: mid ++ (k2, o2) :: post ->
  Forall (fun e => ~ candidate tr bbox label e.2) pre ->
  candidate tr bbox label o1 ->
  candidate tr bbox label o2 ->
  _find_matching_object tr bbox label = Some k1
  /\ (forall iou_thr sel mthr frames,
       tr = run (__init__ iou_thr sel mthr) frames -> k1 < k2).
Proof.
  intros Htab Hpre H1 H2. split.
  - unfold _find_matching_object. rewrite Htab.
    apply scan_objects_first; [|by apply is_candidate_spec].
    eapply Forall_impl; [exact Hpre|]. intros e He.
    apply not_true_iff_false. by rewrite is_candidate_spec.
  - intros iou_thr sel mthr frames ->.
    destruct (run_inv (__init__ iou_thr sel mthr) frames (init_inv _ _ _))
      as [[Hkeys _] _].
    unfold keys in Hkeys. rewrite Htab in Hkeys.
    rewrite fmap_app, fmap_cons, fmap_app, fmap_cons in Hkeys. simpl in Hkeys.
    by eapply ids_increasing.
Qed.

Lemma first_match_not_best_match_witness :
  tracked_objects two_cars = [] ++ (1, left_car) :: [] ++ (2, right_car) :: []
  /\ candidate two_cars box_between "car" left_car
  /\ candidate two_cars box_between "car" right_car
  /\ (_iou box_between (obj_bbox left_car)
      < _iou box_between (obj_bbox right_car))%Q
  /\ _find_matching_object two_cars box_between "car" = Some 1.
Proof.
  assert (tracked_objects two_cars
          = [] ++ (1, left_car) :: [] ++ (2, right_car) :: []) as H0
    by (vm_compute; reflexivity).
  assert (candidate two_cars box_between "car" left_car) as H1
    by (repeat split; vm_compute; reflexivity).
  assert (candidate two_cars box_between "car" right_car) as H2
    by (repeat split; vm_compute; reflexivity).
  split; [exact H0|]. split; [exact H1|]. split; [exact H2|].
  split; [vm_compute; reflexivity|].
  exact (proj1 (first_match_not_best_match two_cars box_between "car"%string
                  [] 1 left_car [] 2 right_car [] H0 (Forall_nil_2 _) H1 H2)).
Defined.

(** ** Intersection over union *)

Lemma inter_area_comm a b : inter_area a b = inter_area b a.
Proof.
  destruct a as [[[x1 y1] x2] y2], b as [[[x1g y1g] x2g] y2g]. simpl.
  by rewrite (Z.max_comm x1), (Z.max_comm y1), (Z.min_comm x2), (Z.min_comm y2).
Qed.

Lemma inter_area_self a : positive_size a -> inter_area a a = box_area a.
Proof.
  destruct a as [[[x1 y1] x2] y2]. simpl. intros [Hx Hy].
  rewrite !Z.max_id, !Z.min_id. rewrite !Z.max_l by lia. done.
Qed.

Lemma inter_area_disjoint a b : boxes_disjoint a b -> inter_area a b = 0.
Proof.
  destruct a as [[[x1 y1] x2] y2], b as [[[x1g y1g] x2g] y2g]. simpl.
  intros H.
  assert (Z.max (Z.min x2 x2g - Z.max x1 x1g) 0 = 0
          \/ Z.max (Z.min y2 y2g - Z.max y1 y1g) 0 = 0) as [->| ->]; lia.
Qed.

Lemma inter_area_flat a b : box_area a = 0 -> inter_area a b = 0.
Proof.
  destruct a as [[[x1 y1] x2] y2], b as [[[x1g y1g] x2g] y2g]. simpl.
  intros H. apply Z.mul_eq_0 in H.
  assert (Z.max (Z.min x2 x2g - Z.max x1 x1g) 0 = 0
          \/ Z.max (Z.min y2 y2g - Z.max y1 y1g) 0 = 0) as [->| ->]; lia.
Qed.

Lemma iou_no_overlap a b : inter_area a b = 0 -> (_iou a b == 0)%Q.
Proof.
  intros H. unfold _iou. rewrite H. destruct (0 <? _); [|done].
  unfold Qdiv. apply Qmult_0_l.
Qed.

(** C7: the IoU of a box of positive width and height with itself is 1;
    the IoU of two boxes without common area is 0; the IoU is symmetric;
    the IoU is 0 as soon as one of the boxes has area 0. *)
Theorem iou_properties a b :
  (positive_size a -> (_iou a a == 1)%Q)
  /\ (boxes_disjoint a b -> (_iou a b == 0)%Q)
  /\ _iou a b = _iou b a
  /\ (box_area a = 0 \/ box_area b = 0 -> (_iou a b == 0)%Q).
Proof.
  split; [|split; [|split]].
  - intros Hpos. unfold _iou, union_area. rewrite inter_area_self by done.
    assert (0 < box_area a) as Harea.
    { destruct a as [[[x1 y1] x2] y2]. simpl in *. nia. }
    replace (box_area a + box_area a - box_area a) with (box_area a) by lia.
    rewrite (proj2 (Z.ltb_lt _ _) Harea).
    apply Qmult_inv_r. intros H. unfold Qeq in H. simpl in H. lia.
  - intros H. by apply iou_no_overlap, inter_area_disjoint.
  - unfold _iou, union_area. rewrite (inter_area_comm b a).
    by rewrite (Z.add_comm (box_area b)).
  - intros [H|H]; apply iou_no_overlap.
    + by apply inter_area_flat.
    + rewrite inter_area_comm. by apply inter_area_flat.
Qed.

Lemma iou_properties_witness :
  positive_size box_a /\ (_iou box_a box_a == 1)%Q
  /\ boxes_disjoint box_a box_far /\ (_iou box_a box_far == 0)%Q
  /\ _iou box_a box_far = _iou box_far box_a
  /\ box_area box_flat = 0 /\ (_iou box_flat box_a == 0)%Q.
Proof.
  assert (positive_size box_a) as H1 by (simpl; lia).
  assert (boxes_disjoint box_a box_far) as H2 by (simpl; lia).
  assert (box_area box_flat = 0) as H3 by reflexivity.
  split; [exact H1|].
  split; [exact (proj1 (iou_properties box_a box_far) H1)|].
  split; [exact H2|].
  split; [exact (proj1 (proj2 (iou_properties box_a box_far)) H2)|].
  split; [exact (proj1 (proj2 (proj2 (iou_properties box_a box_far))))|].
  split; [exact H3|].
  exact (proj2 (proj2 (proj2 (iou_properties box_flat box_a))) (or_introl H3)).
Defined.

(** ** Labels outside the allow-list *)

Lemma resolve_disallowed tr det :
  det_label det ∉ selected_objects tr -> resolve tr det = Skipped.
Proof. intros H. unfold resolve. by rewrite bool_decide_eq_true_2. Qed.

Lemma detection_loop_app t st l1 l2 :
  detection_loop t st (l1 ++ l2) = detection_loop t (detection_loop t st l1) l2.
Proof. unfold detection_loop. apply fold_left_app. Qed.

(** C8: a detection whose label is not in [selected_objects] resolves to
    no object; processing it changes neither the tracker (no object is
    created, no field of any object is modified) nor [matched_ids]; and an
    [update] call gives the same tracker with or without it in the list of
    detections. *)
Theorem disallowed_detection_ignored tr pre det post t :
  det_label det ∉ selected_objects tr ->
  resolve tr det = Skipped
  /\ (forall tr' matched_ids,
       selected_objects tr' = selected_objects tr ->
       process_detection t (tr', matched_ids) det = (tr', matched_ids))
  /\ update tr (pre ++ det :: post) t = update tr (pre ++ post) t.
Proof.
  intros Hsel.
  assert (forall tr' m, selected_objects tr' = selected_objects tr ->
            process_detection t (tr', m) det = (tr', m)) as Hstep.
  { intros tr' m Heq. unfold process_detection.
    rewrite resolve_disallowed; [done | by rewrite Heq]. }
  split; [by apply resolve_disallowed|]. split; [exact Hstep|].
  rewrite !update_unfold. cbn zeta.
  rewrite !detection_loop_app.
  set (st := detection_loop t (init_first_frame_time t tr, ∅) pre).
  replace (detection_loop t st (det :: post)) with (detection_loop t st post);
    [done|].
  unfold detection_loop at 2. simpl. fold (detection_loop t).
  destruct st as [tr' m] eqn:Est. rewrite Hstep; [done|].
  pose proof (detection_loop_config t pre (init_first_frame_time t tr, ∅))
    as (_ & H & _).
  fold st in H. rewrite Est in H. exact H.
Qed.

Lemma disallowed_detection_ignored_witness :
("dog"%string ∉ selected_objects demo_tracker)
  /\ update demo_tracker ([car box_a] ++ mkDetection box_a "dog" :: [car box_far]) 0
     = update demo_tracker ([car box_a] ++ [car box_far]) 0.
Proof.
  assert ("dog"%string ∉ selected_objects demo_tracker) as H
    by (apply (bool_decide_unpack _); vm_compute; exact I).
  split; [exact H|].
  exact (proj2 (proj2 (disallowed_detection_ignored demo_tracker [car box_a]
                         (mkDetection box_a "dog") [car box_far] 0%Q H))).
Defined.

(** ** Summary *)

Lemma update_first_frame_time tr dets t :
  first_frame_time (update tr dets t) = Some (default t (first_frame_time tr)).
Proof.
  rewrite update_unfold. simpl.
  rewrite (proj2 (proj2 (proj2
    (detection_loop_config t dets (init_first_frame_time t tr, ∅))))).
  simpl. by destruct (first_frame_time tr).
Qed.

Lemma run_first_frame_time frames : forall tr t0,
  first_frame_time tr = Some t0 -> first_frame_time (run tr frames) = Some t0.
Proof.
  induction frames as [|[dets t] frames IH]; intros tr t0 H; [done|].
  change (run tr ((dets, t) :: frames)) with (run (update tr dets t) frames).
  apply IH. by rewrite update_first_frame_time, H.
Qed.

Lemma summary_get_append label l e summary :
  summary_get label (summary_append l e summary)
  = if decide (l = label) then summary_get label summary ++ [e]
    else summary_get label summary.
Proof.
  unfold summary_get. induction summary as [|[l' es] summary IH]; simpl.
  - destruct (decide (l = label)) as [->|Hne].
    + by rewrite String.eqb_refl.
    + by rewrite (proj2 (String.eqb_neq l label)).
  - destruct (String.eqb_spec l' l) as [->|Hne]; simpl.
    + destruct (String.eqb_spec l label) as [->|Hne'].
      * by rewrite decide_True.
      * by rewrite decide_False.
    + destruct (String.eqb_spec l' label) as [->|Hne'].
      * simpl. by rewrite decide_False.
      * apply IH.
Qed.

Lemma summary_fold epoch label (d : list (Z * ObjInfo)) : forall summary,
  summary_get label
    (fold_left
       (fun acc entry =>
          summary_append (obj_label entry.2) (summary_entry epoch entry.2) acc)
       d summary)
  = summary_get label summary
    ++ (summary_entry epoch <$> filter (fun o => obj_label o = label) d.*2).
Proof.
  induction d as [|[k o] d IH]; intros summary; simpl.
  - by rewrite app_nil_r.
  - rewrite IH, summary_get_append, filter_cons. simpl.
    destruct (decide (obj_label o = label)); [|done].
    by rewrite fmap_cons, <- app_assoc.
Qed.

Lemma get_detailed_summary_Some tr epoch :
  first_frame_time tr = Some epoch ->
  get_detailed_summary tr
  = Some (fold_left
            (fun acc entry =>
               summary_append (obj_label entry.2)
                 (summary_entry epoch entry.2) acc)
            (tracked_objects tr) []).
Proof.
  intros H. unfold get_detailed_summary. rewrite H.
  generalize (@nil (string * list SummaryEntry)).
  induction (tracked_objects tr) as [|e d IH]; intros acc; simpl; [done|].
  apply IH.
Qed.


Lemma process_detection_first_seen tr t st det :
  tracker_inv st.1 ->
  keys (tracked_objects tr) `prefix_of` keys (tracked_objects st.1) ->
  first_seen_kept tr t st ->
  first_seen_kept tr t (process_detection t st det).
Proof.
  destruct st as [tr' m]. simpl. intros Hinv Hpre Hkept.
  unfold process_detection. destruct (resolve tr' det) as [|j|n] eqn:Hres.
  - done.
  - intros k o'. simpl. rewrite dict_get_alter.
    destruct (decide (k = j)) as [->|Hne]; [|apply Hkept].
    destruct (dict_get j (tracked_objects tr')) as [oj|] eqn:Hj; [|done].
    simpl. intros [= <-]. simpl. by apply (Hkept j oj).
  - apply resolve_Created in Hres as ->.
    intros k o'. simpl. rewrite dict_get_set.
    destruct (decide (k = next_object_id tr')) as [->|Hne]; [|apply Hkept].
    intros [= <-]. simpl.
    rewrite dict_get_None; [done|]. intros Hin.
    destruct Hpre as [more Hmore].
    apply (ids_in_sequence_fresh tr'); [apply Hinv|].
    rewrite Hmore. apply elem_of_app. by left.
Qed.

Lemma update_first_seen tr dets t k o' :
  tracker_inv tr ->
  dict_get k (tracked_objects (update tr dets t)) = Some o' ->
  match dict_get k (tracked_objects tr) with
  | Some o => first_seen o' = first_seen o
  | None => first_seen o' = t
  end.
Proof.
  intros Hinv. rewrite update_unfold. simpl. rewrite dict_get_age.
  set (st := detection_loop t (init_first_frame_time t tr, ∅) dets).
  assert (first_seen_kept tr t st) as Hkept.
  { unfold st, detection_loop.
    apply (fold_left_inv (fun st' =>
      tracker_inv st'.1
      /\ keys (tracked_objects tr) `prefix_of` keys (tracked_objects st'.1)
      /\ first_seen_kept tr t st')).
    - split; [by apply init_first_frame_time_inv|]. split; [done|].
      intros j o. simpl. by intros ->.
    - intros st' det (H1 & H2 & H3).
      split; [by apply process_detection_inv|].
      split; [|by apply process_detection_first_seen].
      etrans; [exact H2|]. apply process_detection_keys. }
  destruct (dict_get k (tracked_objects st.1)) as [o1|] eqn:Ho1; [|done].
  cbn [fmap option_fmap option_map]. intros Heq.
  specialize (Hkept k o1 Ho1).
  assert (first_seen o' = first_seen o1) as ->; [|exact Hkept].
  injection Heq as <-. unfold age_object. by repeat case_match.
Qed.

Lemma update_keeps_key tr dets t k o :
  dict_get k (tracked_objects tr) = Some o ->
  is_Some (dict_get k (tracked_objects (update tr dets t))).
Proof.
  intros H. apply dict_get_is_Some.
  destruct (update_keys tr dets t) as [more ->].
  apply elem_of_app. left. by eapply dict_get_key.
Qed.

Lemma run_first_seen frames : forall tr k o,
  tracker_inv tr -> dict_get k (tracked_objects tr) = Some o ->
  exists o', dict_get k (tracked_objects (run tr frames)) = Some o'
    /\ first_seen o' = first_seen o.
Proof.
  induction frames as [|[dets t] frames IH]; intros tr k o Hinv Ho.
  - by exists o.
  - change (run tr ((dets, t) :: frames)) with (run (update tr dets t) frames).
    destruct (update_keeps_key tr dets t k o Ho) as [o1 Ho1].
    pose proof (update_first_seen tr dets t k o1 Hinv Ho1) as Hfs.
    rewrite Ho in Hfs.
    destruct (IH (update tr dets t) k o1) as (o' & Ho' & Hfs');
      [by apply update_inv | done |].
    exists o'. split; [done | congruence].
Qed.

(** C9: after a first [update] call at time [t0] and any further calls,
    [first_frame_time] is [t0]; [get_detailed_summary] returns a summary
    whose entries for each label are, in table order, those of the tracked
    objects of that label, each with first_seen and last_seen equal to the
    stored value minus [t0]; and every object created in the first call is
    reported with first_seen 0. *)
Theorem summary_relative_to_epoch iou_thr sel mthr dets0 t0 frames :
  first_frame_time (run (__init__ iou_thr sel mthr) ((dets0, t0) :: frames))
    = Some t0
  /\ (forall o,
       s_first_seen (summary_entry t0 o) = (first_seen o - t0)%Q
       /\ s_last_seen (summary_entry t0 o) = (last_seen o - t0)%Q)
  /\ exists summary,
       get_detailed_summary
         (run (__init__ iou_thr sel mthr) ((dets0, t0) :: frames))
       = Some summary
       /\ (forall label,
            summary_get label summary
            = summary_entry t0 <$>
                filter (fun o => obj_label o = label)
                  (tracked_objects
                     (run (__init__ iou_thr sel mthr)
                        ((dets0, t0) :: frames))).*2)
       /\ (forall k o,
            dict_get k
              (tracked_objects
                 (run (__init__ iou_thr sel mthr) ((dets0, t0) :: frames)))
            = Some o ->
            k ∈ keys (tracked_objects
                        (update (__init__ iou_thr sel mthr) dets0 t0)) ->
            (s_first_seen (summary_entry t0 o) == 0)%Q).
Proof.
  set (tr0 := __init__ iou_thr sel mthr).
  change (run tr0 ((dets0, t0) :: frames))
    with (run (update tr0 dets0 t0) frames).
  assert (first_frame_time (run (update tr0 dets0 t0) frames) = Some t0) as Hfft.
  { apply run_first_frame_time. by rewrite update_first_frame_time. }
  split; [done|]. split; [done|].
  eexists. split; [by apply get_detailed_summary_Some|]. split.
  - intros label. by rewrite summary_fold.
  - intros k o Ho Hk.
    assert (tracker_inv tr0) as Hinv0 by apply init_inv.
    apply dict_get_is_Some in Hk as [o1 Ho1].
    pose proof (update_first_seen tr0 dets0 t0 k o1 Hinv0 Ho1) as Hfs.
    simpl in Hfs.
    destruct (run_first_seen frames (update tr0 dets0 t0) k o1)
      as (o' & Ho' & Hfs'); [by apply update_inv | done |].
    assert (o' = o) as -> by congruence.
    simpl. rewrite Hfs', Hfs. apply Qplus_opp_r.
Qed.

Lemma summary_relative_to_epoch_witness :
  dict_get 1 (tracked_objects (run demo_tracker [([car box_a], 5%Q)]))
    = Some (new_object 1 "car" box_a 5)
  /\ 1 ∈ keys (tracked_objects (update demo_tracker [car box_a] 5))
  /\ (s_first_seen (summary_entry 5 (new_object 1 "car" box_a 5)) == 0)%Q.
Proof.
  assert (dict_get 1 (tracked_objects (run demo_tracker [([car box_a], 5%Q)]))
          = Some (new_object 1 "car" box_a 5)) as H1
    by (vm_compute; reflexivity).
  assert (1 ∈ keys (tracked_objects (update demo_tracker [car box_a] 5))) as H2
    by (apply (bool_decide_unpack _); vm_compute; exact I).
  split; [exact H1|]. split; [exact H2|].
  destruct (summary_relative_to_epoch (1 # 2) (Some ["car"%string]) 2
              [car box_a] 5%Q []) as (_ & _ & summary & _ & _ & H).
  exact (H 1 (new_object 1 "car" box_a 5) H1 H2).
Defined.

(** ** The processing loop at catch-up time *)

Section ProcessingLoopFacts.
Variables Model Frame : Type.
Variable perform_object_detection : Model -> Frame -> list Detection.
Variable model : Model.
Variable start_time : Q.

(** Outside catch-up time an empty queue makes the iteration idle. *)
Lemma empty_queue_idle (current_time : Q) (st : LoopState Frame) :
  frame_queue st = [] ->
  Qle_bool catchup_interval (current_time - last_catchup_time st) = false ->
  loop_iteration Model Frame perform_object_detection model start_time
    current_time st
  = Idle st.
Proof. intros Hq Hc. unfold loop_iteration. by rewrite Hc, Hq. Qed.

(** At catch-up time an empty queue leaves [timestamp] and [frame] as they
    were, and the statements after the [if] run on them again. *)
Lemma empty_queue_catchup (current_time : Q) (st : LoopState Frame)
    (frame_count : Z) (timestamp : Q) (frame : Frame) :
  frame_queue st = [] ->
  Qle_bool catchup_interval (current_time - last_catchup_time st) = true ->
  current st = Some (frame_count, timestamp, frame) ->
  loop_iteration Model Frame perform_object_detection model start_time
    current_time st
  = Processed
      {| frame_queue := [];
         last_catchup_time := last_catchup_time st;
         current := current st;
         processed_frame_count := processed_frame_count st + 1;
         tracker :=
           update (tracker st) (perform_object_detection model frame)
             (timestamp - start_time)%Q |}.
Proof.
  intros Hq Hc Hcur. unfold loop_iteration. rewrite Hc, Hq. simpl.
  unfold process_frame. simpl. by rewrite Hcur.
Qed.

(** Before any frame was taken from the queue the same path ends the loop
    with an error. *)
Lemma empty_queue_catchup_unbound (current_time : Q) (st : LoopState Frame) :
  frame_queue st = [] ->
  Qle_bool catchup_interval (current_time - last_catchup_time st) = true ->
  current st = None ->
  exists st',
    loop_iteration Model Frame perform_object_detection model start_time
      current_time st
    = Aborted st'
    /\ processed_frame_count st' = processed_frame_count st
    /\ tracker st' = tracker st.
Proof.
  intros Hq Hc Hcur. unfold loop_iteration. rewrite Hc, Hq. simpl.
  unfold process_frame. simpl. rewrite Hcur. by eexists.
Qed.
End ProcessingLoopFacts.

(** C2 does not hold of the code: with an empty queue at catch-up time
    (clock 2, last catch-up 1, interval 0.5) the iteration processes the
    frame of the previous iteration again: the processed-frame count goes
    from 2 to 3 and the tracker receives an [update] call with the old
    empty frame, which here retires object 1. *)
Theorem empty_queue_catchup_reprocesses_stale_frame :
  frame_queue stale_state = []
  /\ (catchup_interval <= 2 - last_catchup_time stale_state)%Q
  /\ exists st',
       loop_iteration unit (list Detection) demo_detector tt 0 2 stale_state
       = Processed st'
       /\ processed_frame_count stale_state = 2
       /\ processed_frame_count st' = 3
       /\ tracker st' = update (tracker stale_state) [] (1 - 0)
       /\ missing <$> dict_get 1 (tracked_objects (tracker stale_state))
          = Some false
       /\ missing <$> dict_get 1 (tracked_objects (tracker st')) = Some true.
Proof.
  split; [reflexivity|]. split; [by vm_compute|].
  eexists. split.
  - apply (empty_queue_catchup unit (list Detection) demo_detector tt 0 2
             stale_state 2 1%Q []); reflexivity.
  - repeat split; by vm_compute.
Qed.

(** * Further properties of the tracker *)

(** ** Objects matched in every frame *)

Lemma run_matched i frames : forall tr,
  tracker_inv tr -> frames <> [] -> matched_run i tr frames ->
  exists o, dict_get i (tracked_objects (run tr frames)) = Some o
    /\ missing o = false /\ missing_frames o = 0.
Proof.
  induction frames as [|[dets t] frames IH]; intros tr Hinv Hne Hrun; [done|].
  destruct Hrun as [Hi Hrun]. simpl in Hi, Hrun.
  change (run tr ((dets, t) :: frames)) with (run (update tr dets t) frames).
  destruct frames as [|f frames].
  - by apply update_matched.
  - apply IH; [by apply update_inv | done | done].
Qed.

(** X1: in a tracker started by [__init__], an object that is matched (or
    created) in every frame of a non-empty run is Active at the end of the
    run, with a missing streak of 0. *)
Theorem matched_every_frame_stays_active iou_thr sel mthr frames0 frames i :
  frames <> [] ->
  matched_run i (run (__init__ iou_thr sel mthr) frames0) frames ->
  exists o,
    dict_get i
      (tracked_objects (run (run (__init__ iou_thr sel mthr) frames0) frames))
    = Some o
    /\ missing o = false /\ missing_frames o = 0.
Proof.
  intros Hne Hrun. apply run_matched; [|done|done].
  apply run_inv, init_inv.
Qed.

Lemma matched_every_frame_stays_active_witness :
  [([car box_a], 1%Q); ([car box_b], 2%Q); ([car box_a], 3%Q)] <> []
  /\ matched_run 1 (run demo_tracker [([car box_a], 0%Q)])
       [([car box_a], 1%Q); ([car box_b], 2%Q); ([car box_a], 3%Q)]
  /\ exists o,
       dict_get 1
         (tracked_objects
            (run (run demo_tracker [([car box_a], 0%Q)])
               [([car box_a], 1%Q); ([car box_b], 2%Q); ([car box_a], 3%Q)]))
       = Some o
       /\ missing o = false /\ missing_frames o = 0.
Proof.
  assert ([([car box_a], 1%Q); ([car box_b], 2%Q); ([car box_a], 3%Q)] <> [])
    as H1 by discriminate.
  assert (matched_run 1 (run demo_tracker [([car box_a], 0%Q)])
            [([car box_a], 1%Q); ([car box_b], 2%Q); ([car box_a], 3%Q)]) as H2
    by (repeat split; apply (bool_decide_unpack _); vm_compute; exact I).
  split; [exact H1|]. split; [exact H2|].
  exact (matched_every_frame_stays_active (1 # 2) (Some ["car"%string]) 2
           [([car box_a], 0%Q)]
           [([car box_a], 1%Q); ([car box_b], 2%Q); ([car box_a], 3%Q)] 1
           H1 H2).
Defined.

(** ** Range of the missing streak *)

Lemma process_detection_streaks t st det :
  1 <= missing_threshold st.1 -> tracker_inv st.1 ->
  streaks_in_range st -> streaks_in_range (process_detection t st det).
Proof.
  destruct st as [tr m]. simpl. intros Hthr Hinv Hs.
  unfold process_detection. destruct (resolve tr det) as [|j|n] eqn:Hres.
  - done.
  - destruct (resolve_Matched_get _ _ _ Hinv Hres) as (oj & Hj & Hact).
    intros k o. simpl. rewrite dict_get_alter.
    destruct (decide (k = j)) as [->|Hne]; [|apply Hs].
    rewrite Hj. simpl. intros [= <-]. unfold streak_in_range. simpl.
    rewrite Hact. split; [lia|]. split; [done|lia].
  - intros k o. simpl. rewrite dict_get_set.
    destruct (decide (k = n)) as [->|Hne]; [|apply Hs].
    intros [= <-]. unfold streak_in_range. simpl.
    split; [lia|]. split; [done|lia].
Qed.

Lemma age_object_streak thr m k o :
  streak_in_range thr o ->
  (k ∈ m -> missing o = false /\ missing_frames o = 0) ->
  streak_in_range thr (age_object thr m (k, o)).2.
Proof.
  intros [Hrange Hiff] Hm. unfold age_object.
  destruct (bool_decide (k ∉ m) && negb (missing o)) eqn:E1.
  - apply andb_prop in E1 as [_ Hact]. apply negb_true_iff in Hact.
    assert (missing_frames o <> thr) as Hne.
    { intros Heq. apply Hiff in Heq. congruence. }
    unfold streak_in_range. simpl. split; [lia|].
    destruct (Z.leb_spec thr (missing_frames o + 1)).
    + split; [lia | done].
    + rewrite Hact. split; [done | lia].
  - destruct (bool_decide (k ∈ m) && (0 <? missing_frames o)) eqn:E2.
    + apply andb_prop in E2 as [Hk Hpos]. apply bool_decide_eq_true in Hk.
      destruct (Hm Hk) as [_ H0]. rewrite H0 in Hpos. done.
    + done.
Qed.

Lemma update_streaks tr dets t :
  1 <= missing_threshold tr -> tracker_inv tr ->
  streaks_in_range (tr, ∅) -> streaks_in_range (update tr dets t, ∅).
Proof.
  intros Hthr Hinv Hs. rewrite update_unfold. cbn zeta.
  set (st := detection_loop t (init_first_frame_time t tr, ∅) dets).
  assert (tracker_inv st.1 /\ fresh_match st /\ streaks_in_range st
          /\ missing_threshold st.1 = missing_threshold tr)
    as (Hinv' & Hfresh & Hs' & Hthr').
  { unfold st, detection_loop. apply fold_left_inv.
    - split; [by apply init_first_frame_time_inv|].
      split; [intros i Hi; simpl in Hi; by apply not_elem_of_empty in Hi|].
      done.
    - intros st' det (H1 & H2 & H3 & H4).
      split; [by apply process_detection_inv|].
      split; [by apply process_detection_fresh_match|].
      split.
      + apply process_detection_streaks; [by rewrite H4 | done | done].
      + by rewrite (proj1 (proj2 (proj2 (process_detection_config t st' det)))). }
  intros k o'. simpl. rewrite dict_get_age.
  destruct (dict_get k (tracked_objects st.1)) as [o|] eqn:Ho; [|done].
  cbn [fmap option_fmap option_map]. intros [= <-].
  apply age_object_streak; [exact (Hs' k o Ho)|].
  intros Hk. destruct (Hfresh k Hk) as (o1 & Ho1 & H1 & H2).
  assert (o1 = o) as -> by congruence. done.
Qed.

(** X2: in a tracker started by [__init__] with a threshold of at least 1,
    every object has a missing streak between 0 and [missing_threshold],
    and it is Retired exactly when its streak equals [missing_threshold]. *)
Theorem missing_streak_in_range iou_thr sel mthr frames k o :
  1 <= mthr ->
  dict_get k (tracked_objects (run (__init__ iou_thr sel mthr) frames)) = Some o ->
  0 <= missing_frames o <= mthr
  /\ (missing o = true <-> missing_frames o = mthr).
Proof.
  intros Hthr.
  assert (tracker_inv (run (__init__ iou_thr sel mthr) frames)
          /\ missing_threshold (run (__init__ iou_thr sel mthr) frames) = mthr
          /\ streaks_in_range (run (__init__ iou_thr sel mthr) frames, ∅))
    as (_ & Hm & Hs).
  { unfold run. apply fold_left_inv.
    - split; [apply init_inv|]. split; [done|]. by intros k' o'.
    - intros tr f (H1 & H2 & H3).
      split; [by apply update_inv|]. split.
      + by rewrite (proj2 (proj2 (update_config tr (f.1) (f.2)))).
      + apply update_streaks; [by rewrite H2 | done | done]. }
  intros Ho. specialize (Hs k o Ho). simpl in Hs. by rewrite Hm in Hs.
Qed.

Lemma missing_streak_in_range_witness :
  1 <= 2
  /\ dict_get 1 (tracked_objects (run demo_tracker retire_frames))
     = Some retired_car
  /\ 0 <= missing_frames retired_car <= 2
  /\ (missing retired_car = true <-> missing_frames retired_car = 2).
Proof.
  assert (1 <= 2) as H1 by lia.
  assert (dict_get 1 (tracked_objects (run demo_tracker retire_frames))
          = Some retired_car) as H2 by (vm_compute; reflexivity).
  split; [exact H1|]. split; [exact H2|].
  exact (missing_streak_in_range (1 # 2) (Some ["car"%string]) 2
           retire_frames 1 retired_car H1 H2).
Defined.

(** ** Fields written at creation only *)

Section KeptField.
Context {A : Type} (f : ObjInfo -> A).
Hypothesis f_refresh : forall bbox t o, f (refresh bbox t o) = f o.
Hypothesis f_age : forall thr m k o, f (age_object thr m (k, o)).2 = f o.

Lemma process_detection_field t st det k o :
  tracker_inv st.1 ->
  dict_get k (tracked_objects st.1) = Some o ->
  exists o', dict_get k (tracked_objects (process_detection t st det).1) = Some o'
    /\ f o' = f o.
Proof using f_refresh.
  destruct st as [tr m]. simpl. intros Hinv Ho.
  unfold process_detection. destruct (resolve tr det) as [|j|n] eqn:Hres.
  - by exists o.
  - simpl. rewrite dict_get_alter. destruct (decide (k = j)) as [->|Hne].
    + rewrite Ho. simpl. eexists. split; [done|]. apply f_refresh.
    + by exists o.
  - apply resolve_Created in Hres as ->. simpl. rewrite dict_get_set.
    destruct (decide (k = next_object_id tr)) as [->|Hne]; [|by exists o].
    exfalso. apply dict_get_key in Ho.
    by apply (ids_in_sequence_fresh tr); [apply Hinv|].
Qed.

Lemma update_field tr dets t k o :
  tracker_inv tr ->
  dict_get k (tracked_objects tr) = Some o ->
  exists o', dict_get k (tracked_objects (update tr dets t)) = Some o'
    /\ f o' = f o.
Proof using f_refresh f_age.
  intros Hinv Ho. rewrite update_unfold. cbn zeta.
  set (st := detection_loop t (init_first_frame_time t tr, ∅) dets).
  assert (tracker_inv st.1
          /\ exists o', dict_get k (tracked_objects st.1) = Some o' /\ f o' = f o)
    as (_ & o1 & Ho1 & Hf1).
  { unfold st, detection_loop. apply fold_left_inv.
    - split; [by apply init_first_frame_time_inv|]. by exists o.
    - intros st' det (H1 & o' & H2 & H3).
      split; [by apply process_detection_inv|].
      destruct (process_detection_field t st' det k o' H1 H2) as (o'' & H4 & H5).
      exists o''. split; [done | congruence]. }
  simpl. rewrite dict_get_age, Ho1. cbn [fmap option_fmap option_map].
  eexists. split; [done|]. by rewrite f_age.
Qed.

Lemma run_field frames : forall tr k o,
  tracker_inv tr ->
  dict_get k (tracked_objects tr) = Some o ->
  exists o', dict_get k (tracked_objects (run tr frames)) = Some o'
    /\ f o' = f o.
Proof using f_refresh f_age.
  induction frames as [|[dets t] frames IH]; intros tr k o Hinv Ho.
  - by exists o.
  - change (run tr ((dets, t) :: frames)) with (run (update tr dets t) frames).
    destruct (update_field tr dets t k o Hinv Ho) as (o1 & Ho1 & Hf1).
    destruct (IH (update tr dets t) k o1) as (o' & Ho' & Hf');
      [by apply update_inv | done |].
    exists o'. split; [done | congruence].
Qed.
End KeptField.

(** X3: in a tracker started by [__init__], an object keeps its id, its
    label and its first_seen time through any further sequence of [update]
    calls (and stays in the table under the same key). *)
Theorem identity_fields_immutable iou_thr sel mthr frames k o more :
  dict_get k (tracked_objects (run (__init__ iou_thr sel mthr) frames)) = Some o ->
  exists o',
    dict_get k
      (tracked_objects (run (run (__init__ iou_thr sel mthr) frames) more))
    = Some o'
    /\ obj_id o' = obj_id o /\ obj_label o' = obj_label o
    /\ first_seen o' = first_seen o.
Proof.
  intros Ho.
  destruct (run_field (fun o => (obj_id o, obj_label o, first_seen o)))
    with (frames := more) (tr := run (__init__ iou_thr sel mthr) frames)
         (k := k) (o := o) as (o' & Ho' & Hf).
  - done.
  - intros thr m k' o'. unfold age_object. by repeat case_match.
  - apply run_inv, init_inv.
  - done.
  - exists o'. split; [done|]. by injection Hf as -> -> ->.
Qed.

Lemma identity_fields_immutable_witness :
  dict_get 1 (tracked_objects (run demo_tracker [([car box_a], 0%Q)]))
    = Some (new_object 1 "car" box_a 0)
  /\ exists o',
       dict_get 1
         (tracked_objects
            (run (run demo_tracker [([car box_a], 0%Q)])
               [([car box_b], 1%Q); ([], 2%Q)]))
       = Some o'
       /\ obj_id o' = 1 /\ obj_label o' = "car"%string
       /\ first_seen o' = 0%Q.
Proof.
  assert (dict_get 1 (tracked_objects (run demo_tracker [([car box_a], 0%Q)]))
          = Some (new_object 1 "car" box_a 0)) as H1
    by (vm_compute; reflexivity).
  split; [exact H1|].
  exact (identity_fields_immutable (1 # 2) (Some ["car"%string]) 2
           [([car box_a], 0%Q)] 1 (new_object 1 "car" box_a 0)
           [([car box_b], 1%Q); ([], 2%Q)] H1).
Defined.

(** ** Times *)

Lemma Forall_dict_set (P : Z * ObjInfo -> Prop) k v d :
  P (k, v) -> Forall P d -> Forall P (dict_set k v d).
Proof.
  intros Hv. induction d as [|[k' o'] d IH]; simpl.
  - by repeat constructor.
  - intros H. apply Forall_cons in H as [Ho' Hd].
    destruct (Z.eqb_spec k' k) as [->|Hne]; constructor; auto.
Qed.

(** A property of records that [update] establishes at each write and that
    the second loop cannot break. *)
Lemma update_Forall (P : Z * ObjInfo -> Prop) tr dets t :
  (forall k bbox o, P (k, o) -> P (k, refresh bbox t o)) ->
  (forall k label bbox, P (k, new_object k label bbox t)) ->
  (forall thr m k o, P (k, o) -> P (age_object thr m (k, o))) ->
  Forall P (tracked_objects tr) ->
  Forall P (tracked_objects (update tr dets t)).
Proof.
  intros Hrefresh Hnew Hage HP. rewrite update_unfold. cbn zeta.
  set (st := detection_loop t (init_first_frame_time t tr, ∅) dets).
  assert (Forall P (tracked_objects st.1)) as Hst.
  { unfold st, detection_loop.
    apply (fold_left_inv (fun st' => Forall P (tracked_objects st'.1)));
      [done|].
    intros [tr' m] det H. simpl in H. unfold process_detection.
    destruct (resolve tr' det) as [|j|n]; simpl; [done| |].
    - apply Forall_dict_alter; [|done]. intros o. apply Hrefresh.
    - by apply Forall_dict_set. }
  simpl. apply Forall_fmap. eapply Forall_impl; [exact Hst|].
  intros [k o] Ho. by apply Hage.
Qed.

Lemma age_object_times thr m k o :
  let e := age_object thr m (k, o) in
  first_seen e.2 = first_seen o /\ last_seen e.2 = last_seen o
  /\ total_time e.2 = total_time o.
Proof. unfold age_object. by repeat case_match. Qed.

Lemma total_time_span_aux iou_thr sel mthr frames :
  Forall times_consistent
    (tracked_objects (run (__init__ iou_thr sel mthr) frames)).
Proof.
  unfold run.
  apply (fold_left_inv (fun tr => Forall times_consistent (tracked_objects tr))).
  - constructor.
  - intros tr f H. apply update_Forall; [| | |done].
    + intros k bbox o _. unfold times_consistent. simpl. reflexivity.
    + intros k label bbox. unfold times_consistent. simpl.
      symmetry. apply Qplus_opp_r.
    + intros thr m k o Ho. unfold times_consistent in *.
      destruct (age_object_times thr m k o) as (-> & -> & ->). exact Ho.
Qed.

(** X4: in a tracker started by [__init__], the total_time of every object
    equals its last_seen minus its first_seen. *)
Theorem total_time_is_span iou_thr sel mthr frames :
  Forall (fun e => (total_time e.2 == last_seen e.2 - first_seen e.2)%Q)
    (tracked_objects (run (__init__ iou_thr sel mthr) frames)).
Proof. apply total_time_span_aux. Qed.

Lemma update_seen_before tr dets t t' :
  (t <= t')%Q ->
  Forall (seen_before t) (tracked_objects tr) ->
  Forall (seen_before t') (tracked_objects (update tr dets t')).
Proof.
  intros Hle H. apply update_Forall.
  - intros k bbox o [H1 H2]. unfold seen_before in *. simpl in *.
    split; [|apply Qle_refl]. by eapply Qle_trans.
  - intros k label bbox. unfold seen_before. simpl. split; apply Qle_refl.
  - intros thr m k o [H1 H2]. unfold seen_before in *.
    destruct (age_object_times thr m k o) as (-> & -> & _). done.
  - eapply Forall_impl; [exact H|]. intros e [H1 H2].
    split; [done|]. by eapply Qle_trans.
Qed.

Lemma run_seen_before frames : forall tr t,
  times_from t frames ->
  Forall (seen_before t) (tracked_objects tr) ->
  Forall (fun e => (first_seen e.2 <= last_seen e.2)%Q)
    (tracked_objects (run tr frames)).
Proof.
  induction frames as [|[dets t'] frames IH]; intros tr t Ht H.
  - simpl. eapply Forall_impl; [exact H|]. by intros e [H1 _].
  - destruct Ht as [Hle Ht]. simpl in Hle, Ht.
    change (run tr ((dets, t') :: frames)) with (run (update tr dets t') frames).
    apply (IH _ t'); [done|]. by eapply update_seen_before.
Qed.

(** X5: in a tracker started by [__init__] and fed frames whose times never
    decrease, every object has first_seen <= last_seen and a total_time
    that is not negative. *)
Theorem seen_times_ordered iou_thr sel mthr frames :
  times_nondecreasing frames ->
  Forall (fun e => (first_seen e.2 <= last_seen e.2)%Q
                   /\ (0 <= total_time e.2)%Q)
    (tracked_objects (run (__init__ iou_thr sel mthr) frames)).
Proof.
  intros Ht.
  assert (Forall (fun e => (first_seen e.2 <= last_seen e.2)%Q)
            (tracked_objects (run (__init__ iou_thr sel mthr) frames))) as H1.
  { destruct frames as [|f frames]; [constructor|].
    apply (run_seen_before (f :: frames) _ (f.2)).
    - split; [apply Qle_refl | exact Ht].
    - constructor. }
  pose proof (total_time_span_aux iou_thr sel mthr frames) as H2.
  rewrite Forall_forall in H1, H2. apply Forall_forall. intros e He.
  split; [by apply H1|]. specialize (H1 e He). specialize (H2 e He).
  unfold times_consistent in H2. rewrite H2.
  by apply (proj1 (Qle_minus_iff _ _)).
Qed.

Lemma seen_times_ordered_witness :
  times_nondecreasing [([car box_a], 0%Q); ([car box_b], 3%Q); ([], 3%Q)]
  /\ Forall (fun e => (first_seen e.2 <= last_seen e.2)%Q
                      /\ (0 <= total_time e.2)%Q)
       (tracked_objects
          (run demo_tracker [([car box_a], 0%Q); ([car box_b], 3%Q); ([], 3%Q)])).
Proof.
  assert (times_nondecreasing
            [([car box_a], 0%Q); ([car box_b], 3%Q); ([], 3%Q)]) as H
    by (repeat split; by vm_compute).
  split; [exact H|].
  exact (seen_times_ordered (1 # 2) (Some ["car"%string]) 2
           [([car box_a], 0%Q); ([car box_b], 3%Q); ([], 3%Q)] H).
Defined.

(** ** Range of the IoU *)

Lemma inter_area_bounds a b :
  0 <= inter_area a b
  /\ (0 < inter_area a b ->
      inter_area a b <= box_area a /\ inter_area a b <= box_area b
      /\ positive_size a /\ positive_size b).
Proof.
  destruct a as [[[x1 y1] x2] y2], b as [[[x1g y1g] x2g] y2g]. simpl.
  set (w := Z.min x2 x2g - Z.max x1 x1g).
  set (h := Z.min y2 y2g - Z.max y1 y1g).
  split; [apply Z.mul_nonneg_nonneg; lia|].
  intros Hpos.
  assert (0 < w) as Hw.
  { destruct (Z.lt_ge_cases 0 w) as [|Hle]; [done|].
    rewrite (Z.max_r w 0) in Hpos by lia. lia. }
  assert (0 < h) as Hh.
  { destruct (Z.lt_ge_cases 0 h) as [|Hle]; [done|].
    rewrite (Z.max_r h 0) in Hpos by lia. lia. }
  rewrite (Z.max_l w 0), (Z.max_l h 0) by lia.
  split; [|split].
  - apply Z.mul_le_mono_nonneg; lia.
  - apply Z.mul_le_mono_nonneg; lia.
  - lia.
Qed.

Lemma iou_quotient a b :
  0 < union_area a b ->
  exists p, union_area a b = Z.pos p /\ (_iou a b == inter_area a b # p)%Q.
Proof.
  intros Hu. unfold _iou. rewrite (proj2 (Z.ltb_lt _ _) Hu).
  destruct (union_area a b) as [|p|p] eqn:E; [lia| |lia].
  exists p. split; [done|]. symmetry. apply Qmake_Qdiv.
Qed.

Lemma iou_zero_union a b : union_area a b <= 0 -> _iou a b = 0%Q.
Proof.
  intros Hu. unfold _iou.
  by rewrite (proj2 (Z.ltb_ge _ _) Hu).
Qed.

Lemma iou_bounds_areas a b :
  0 <= inter_area a b /\ (0 < union_area a b -> inter_area a b <= union_area a b).
Proof.
  destruct (inter_area_bounds a b) as [Hnn Hpos]. split; [done|]. intros Hu.
  destruct (Z.eq_dec (inter_area a b) 0) as [E|E]; [lia|].
  destruct Hpos as (Ha & Hb & _); [lia|]. unfold union_area in *. lia.
Qed.

Lemma iou_bounds_aux a b : (_iou a b <= 1)%Q.
Proof.
  destruct (inter_area_bounds a b) as [Hnn Hpos].
  destruct (Z.le_gt_cases (union_area a b) 0) as [Hu|Hu].
  - rewrite iou_zero_union by done. by vm_compute.
  - destruct (iou_quotient a b Hu) as (p & Hp & ->).
    unfold Qle. simpl.
    destruct (Z.eq_dec (inter_area a b) 0) as [E|E]; [lia|].
    destruct Hpos as (Ha & Hb & _); [lia|].
    unfold union_area in Hp. lia.
Qed.

(** X6: the IoU of any two boxes, well formed or not, lies between 0
    and 1. *)
Theorem iou_between_0_and_1 a b : (0 <= _iou a b)%Q /\ (_iou a b <= 1)%Q.
Proof.
  split; [|apply iou_bounds_aux].
  destruct (inter_area_bounds a b) as [Hnn _].
  destruct (Z.le_gt_cases (union_area a b) 0) as [Hu|Hu].
  - rewrite iou_zero_union by done. by vm_compute.
  - destruct (iou_quotient a b Hu) as (p & Hp & ->).
    unfold Qle. simpl. lia.
Qed.

(** The intersection of two boxes fills their union only if they are the
    same box. *)
Lemma inter_fills_union_only_if_equal a b :
  0 < union_area a b -> inter_area a b = union_area a b -> a = b.
Proof.
  intros Hu Hiu.
  destruct (inter_area_bounds a b) as [_ Hpos].
  destruct Hpos as (Ha & Hb & Hsa & Hsb); [lia|].
  unfold union_area in Hiu.
  assert (inter_area a b = box_area a) as Ea by lia.
  assert (inter_area a b = box_area b) as Eb by lia.
  clear Hiu Ha Hb Hu.
  destruct a as [[[x1 y1] x2] y2], b as [[[x1g y1g] x2g] y2g].
  simpl in *.
  set (w := Z.min x2 x2g - Z.max x1 x1g) in *.
  set (h := Z.min y2 y2g - Z.max y1 y1g) in *.
  assert (0 < Z.max w 0 /\ 0 < Z.max h 0) as [Hw Hh].
  { assert (0 < Z.max w 0 * Z.max h 0) by nia. split; nia. }
  rewrite (Z.max_l w 0), (Z.max_l h 0) in Ea, Eb by lia.
  assert (w = x2 - x1 /\ h = y2 - y1) as [Ew Eh].
  { assert (w <= x2 - x1) by lia. assert (h <= y2 - y1) by lia. nia. }
  assert (w = x2g - x1g /\ h = y2g - y1g) as [Ewg Ehg].
  { assert (w <= x2g - x1g) by lia. assert (h <= y2g - y1g) by lia. nia. }
  assert (x1 = x1g /\ x2 = x2g /\ y1 = y1g /\ y2 = y2g) as (-> & -> & -> & ->)
    by lia.
  done.
Qed.

(** X7: for two different boxes the intersection area is smaller than the
    union area whenever the latter is positive, and if the union area is
    at most 2^53 the IoU is at most 1 - 2^-53.  That bound is the largest
    double below 1 and rounding is monotone, so the float returned by the
    code is below 1.0 as well; beyond 2^53 the rounded quotient of two
    different boxes can be 1.0. *)
Theorem iou_below_one_for_different_boxes a b :
  a <> b ->
  union_area a b <= 2 ^ 53 ->
  (0 < union_area a b -> inter_area a b < union_area a b)
  /\ (_iou a b <= 1 - (1 # 2 ^ 53))%Q.
Proof.
  intros Hne Hsmall.
  assert (0 < union_area a b -> inter_area a b < union_area a b) as Hlt.
  { intros Hu. destruct (iou_bounds_areas a b) as [_ Hle].
    destruct (Z.eq_dec (inter_area a b) (union_area a b)) as [E|E]; [|lia].
    exfalso. apply Hne. by apply inter_fills_union_only_if_equal. }
  split; [exact Hlt|].
  destruct (Z.le_gt_cases (union_area a b) 0) as [Hu|Hu].
  - rewrite iou_zero_union by done. by vm_compute.
  - destruct (iou_quotient a b Hu) as (p & Hp & ->).
    specialize (Hlt Hu). rewrite Hp in Hlt, Hsmall.
    change (2 ^ 53) with 9007199254740992 in Hsmall.
    change (1 - (1 # 2 ^ 53))%Q with (9007199254740991 # 9007199254740992)%Q.
    unfold Qle. cbn [Qnum Qden]. lia.
Qed.

Lemma iou_below_one_for_different_boxes_witness :
  box_a <> box_b
  /\ union_area box_a box_b <= 2 ^ 53
  /\ (_iou box_a box_b <= 1 - (1 # 2 ^ 53))%Q.
Proof.
  assert (box_a <> box_b) as H1 by discriminate.
  assert (union_area box_a box_b <= 2 ^ 53) as H2 by (by vm_compute).
  split; [exact H1|]. split; [exact H2|].
  exact (proj2 (iou_below_one_for_different_boxes box_a box_b H1 H2)).
Defined.

(** ** Detections that can match nothing *)

Lemma scan_objects_none thr bbox label d :
  Forall (fun e => is_candidate thr bbox label e.2 = false) d ->
  scan_objects thr bbox label d = None.
Proof.
  induction d as [|[k o] d IH]; simpl; [done|].
  intros H. apply Forall_cons in H as [Ho Hd]. simpl in Ho.
  rewrite Ho. by apply IH.
Qed.

Lemma not_candidate_low_iou thr bbox label o :
  (_iou bbox (obj_bbox o) <= thr)%Q -> is_candidate thr bbox label o = false.
Proof.
  intros H. unfold is_candidate, Qgtb.
  rewrite (proj2 (Qle_bool_iff _ _) H). simpl. apply andb_false_r.
Qed.

Lemma resolve_no_candidate tr det :
  det_label det ∈ selected_objects tr ->
  (forall o, (_iou (det_bbox det) (obj_bbox o) <= iou_threshold tr)%Q) ->
  resolve tr det = Created (next_object_id tr).
Proof.
  intros Hsel Hiou. unfold resolve.
  rewrite bool_decide_eq_false_2 by (intros H; by apply H).
  unfold _find_matching_object. rewrite scan_objects_none; [done|].
  apply Forall_forall. intros e _. by apply not_candidate_low_iou.
Qed.

Lemma update_single_created tr det t :
  tracker_inv tr ->
  resolve tr det = Created (next_object_id tr) ->
  keys (tracked_objects (update tr [det] t))
  = keys (tracked_objects tr) ++ [next_object_id tr].
Proof.
  intros Hinv Hres. rewrite update_unfold. cbn zeta.
  cbn [set_tracked_objects tracked_objects]. rewrite keys_age.
  unfold detection_loop. cbn [fold_left]. unfold process_detection.
  replace (resolve (init_first_frame_time t tr) det)
    with (Created (next_object_id tr)) by (by rewrite <- Hres).
  cbn [fst tracked_objects init_first_frame_time].
  rewrite dict_set_fresh by (apply ids_in_sequence_fresh, Hinv).
  unfold keys. by rewrite fmap_app.
Qed.

(** X8: a detection with an allowed label whose box has area 0 matches no
    object when the threshold is not negative, not even an object with the
    same box: it creates a new object, and in a tracker started by
    [__init__] an [update] call with that detection alone appends the new
    id to the table. *)
Theorem degenerate_detection_creates iou_thr sel mthr frames det t :
  box_area (det_bbox det) = 0 ->
  (0 <= iou_thr)%Q ->
  det_label det ∈ selected_objects (run (__init__ iou_thr sel mthr) frames) ->
  resolve (run (__init__ iou_thr sel mthr) frames) det
    = Created (next_object_id (run (__init__ iou_thr sel mthr) frames))
  /\ keys (tracked_objects
             (update (run (__init__ iou_thr sel mthr) frames) [det] t))
     = keys (tracked_objects (run (__init__ iou_thr sel mthr) frames))
       ++ [next_object_id (run (__init__ iou_thr sel mthr) frames)].
Proof.
  intros Harea Hthr Hsel.
  set (tr := run (__init__ iou_thr sel mthr) frames) in *.
  assert (resolve tr det = Created (next_object_id tr)) as Hres.
  { apply resolve_no_candidate; [done|]. intros o.
    rewrite (iou_no_overlap (det_bbox det) (obj_bbox o))
      by (by apply inter_area_flat).
    unfold tr. by rewrite (proj1 (run_config _ _)). }
  split; [done|]. apply update_single_created; [|done].
  apply run_inv, init_inv.
Qed.

Lemma degenerate_detection_creates_witness :
  box_area (det_bbox (car box_flat)) = 0
  /\ (0 <= 1 # 2)%Q
  /\ (det_label (car box_flat)
       ∈ selected_objects (run demo_tracker [([car box_flat], 0%Q)]))
  /\ keys (tracked_objects
             (update (run demo_tracker [([car box_flat], 0%Q)])
                [car box_flat] 1))
     = [1; 2].
Proof.
  assert (box_area (det_bbox (car box_flat)) = 0) as H1 by reflexivity.
  assert (0 <= 1 # 2)%Q as H2 by (by vm_compute).
  assert (det_label (car box_flat)
            ∈ selected_objects (run demo_tracker [([car box_flat], 0%Q)])) as H3
    by (apply (bool_decide_unpack _); vm_compute; exact I).
  split; [exact H1|]. split; [exact H2|]. split; [exact H3|].
  exact (proj2 (degenerate_detection_creates (1 # 2) (Some ["car"%string]) 2
                  [([car box_flat], 0%Q)] (car box_flat) 1%Q H1 H2 H3)).
Defined.

(** X9: with an IoU threshold of 1 or more the matcher finds no object,
    whatever the table, the box and the label. *)
Theorem threshold_one_never_matches tr bbox label :
  (1 <= iou_threshold tr)%Q -> _find_matching_object tr bbox label = None.
Proof.
  intros Hthr. unfold _find_matching_object. apply scan_objects_none.
  apply Forall_forall. intros e _. apply not_candidate_low_iou.
  eapply Qle_trans; [|exact Hthr].
  apply (iou_bounds_aux bbox (obj_bbox e.2)).
Qed.

Lemma threshold_one_never_matches_witness :
  (1 <= iou_threshold
          (run (__init__ 1 (Some ["car"%string]) 2) [([car box_a], 0%Q)]))%Q
  /\ _find_matching_object
       (run (__init__ 1 (Some ["car"%string]) 2) [([car box_a], 0%Q)])
       box_a "car"
     = None.
Proof.
  assert (1 <= iou_threshold
                 (run (__init__ 1 (Some ["car"%string]) 2)
                    [([car box_a], 0%Q)]))%Q as H by (by vm_compute).
  split; [exact H|].
  exact (threshold_one_never_matches
           (run (__init__ 1 (Some ["car"%string]) 2) [([car box_a], 0%Q)])
           box_a "car"%string H).
Defined.

(** ** The identity query of the drawing loop *)

Lemma no_candidate_for_disallowed_label tr bbox label :
  tracker_inv tr -> label ∉ selected_objects tr ->
  _find_matching_object tr bbox label = None.
Proof.
  intros [_ Hwf] Hsel. unfold _find_matching_object. apply scan_objects_none.
  eapply Forall_impl; [exact Hwf|]. intros [k o] [_ Hl]. simpl in *.
  unfold is_candidate.
  destruct (String.eqb_spec (obj_label o) label) as [<-|Hne]; [done|].
  by rewrite andb_false_r.
Qed.

(** X10: in a tracker started by [__init__], the matcher called with a
    label outside [selected_objects] returns no object, as no tracked
    object carries such a label; the drawing loop of [main], which queries
    every detection whatever its label, draws nothing for it. *)
Theorem disallowed_label_query_is_none iou_thr sel mthr frames bbox label :
  label ∉ selected_objects (run (__init__ iou_thr sel mthr) frames) ->
  _find_matching_object (run (__init__ iou_thr sel mthr) frames) bbox label
  = None.
Proof.
  intros Hsel. apply no_candidate_for_disallowed_label; [|done].
  apply run_inv, init_inv.
Qed.

Lemma disallowed_label_query_is_none_witness :
  ("dog"%string
     ∉ selected_objects (run demo_tracker [([car box_a; mkDetection box_a "dog"], 0%Q)]))
  /\ _find_matching_object
       (run demo_tracker [([car box_a; mkDetection box_a "dog"], 0%Q)])
       box_a "dog"
     = None.
Proof.
  assert ("dog"%string
            ∉ selected_objects
                (run demo_tracker [([car box_a; mkDetection box_a "dog"], 0%Q)]))
    as H by (apply (bool_decide_unpack _); vm_compute; exact I).
  split; [exact H|].
  exact (disallowed_label_query_is_none (1 # 2) (Some ["car"%string]) 2
           [([car box_a; mkDetection box_a "dog"], 0%Q)] box_a "dog"%string H).
Defined.

Lemma scan_objects_split thr bbox label d k :
  scan_objects thr bbox label d = Some k ->
  exists pre o post,
    d = pre ++ (k, o) :: post
    /\ Forall (fun e => is_candidate thr bbox label e.2 = false) pre
    /\ is_candidate thr bbox label o = true.
Proof.
  induction d as [|[k' o'] d IH]; simpl; [done|].
  destruct (is_candidate thr bbox label o') eqn:Ho'.
  - intros [= ->]. exists [], o', d. by repeat split.
  - intros H. destruct (IH H) as (pre & o & post & -> & Hpre & Ho).
    exists ((k', o') :: pre), o, post. split; [done|].
    split; [by constructor | done].
Qed.

Lemma dict_alter_split (f : ObjInfo -> ObjInfo) k pre o post :
  k ∉ keys pre ->
  dict_alter f k (pre ++ (k, o) :: post) = pre ++ (k, f o) :: post.
Proof.
  induction pre as [|[k' o'] pre IH]; simpl; intros Hk.
  - by rewrite Z.eqb_refl.
  - apply not_elem_of_cons in Hk as [Hne Hk].
    destruct (Z.eqb_spec k' k); [congruence|]. f_equal. by apply IH.
Qed.

Lemma age_object_candidate thr' m thr bbox label k o :
  is_candidate thr bbox label (age_object thr' m (k, o)).2 = true ->
  is_candidate thr bbox label o = true.
Proof.
  unfold age_object, is_candidate.
  destruct (bool_decide (k ∉ m) && negb (missing o)) eqn:E1; simpl.
  - apply andb_prop in E1 as [_ Hact]. apply negb_true_iff in Hact.
    rewrite Hact. by destruct (thr' <=? missing_frames o + 1).
  - by destruct (bool_decide (k ∈ m) && (0 <? missing_frames o)).
Qed.

Lemma Forall_age_non_candidate thr' m thr bbox label d :
  Forall (fun e => is_candidate thr bbox label e.2 = false) d ->
  Forall (fun e => is_candidate thr bbox label e.2 = false)
    (age_object thr' m <$> d).
Proof.
  intros H. apply Forall_fmap. eapply Forall_impl; [exact H|].
  intros [k o] Ho. unfold compose. cbn [snd] in Ho.
  apply not_true_iff_false. intros E.
  apply age_object_candidate in E. congruence.
Qed.

Lemma age_object_matched thr m k o :
  k ∈ m -> missing_frames o = 0 -> age_object thr m (k, o) = (k, o).
Proof.
  intros Hk H0. unfold age_object.
  rewrite (bool_decide_eq_false_2 (k ∉ m)) by (intros H; by apply H).
  rewrite H0. simpl. by rewrite andb_false_r.
Qed.

Lemma iou_self bbox : positive_size bbox -> (_iou bbox bbox == 1)%Q.
Proof.
  intros Hpos. unfold _iou, union_area. rewrite inter_area_self by done.
  assert (0 < box_area bbox) as Harea.
  { destruct bbox as [[[x1 y1] x2] y2]. simpl in *. nia. }
  replace (box_area bbox + box_area bbox - box_area bbox)
    with (box_area bbox) by lia.
  rewrite (proj2 (Z.ltb_lt _ _) Harea).
  apply Qmult_inv_r. intros H. unfold Qeq in H. simpl in H. lia.
Qed.

Lemma is_candidate_same_box thr bbox label o :
  positive_size bbox -> (thr < 1)%Q ->
  missing o = false -> obj_label o = label -> obj_bbox o = bbox ->
  is_candidate thr bbox label o = true.
Proof.
  intros Hpos Hthr Hact Hl Hb. unfold is_candidate, Qgtb.
  rewrite Hact, Hl, Hb, String.eqb_refl. simpl.
  destruct (Qle_bool (_iou bbox bbox) thr) eqn:E; [|done].
  apply Qle_bool_iff in E. rewrite iou_self in E by done.
  by apply Qle_not_lt in E.
Qed.

Lemma resolutions_app t l1 l2 : forall st,
  resolutions t st (l1 ++ l2)
  = resolutions t st l1 ++ resolutions t (detection_loop t st l1) l2.
Proof.
  induction l1 as [|det l1 IH]; intros st; [done|].
  simpl. by rewrite IH.
Qed.

(** The query made right after [update] for the detection processed last. *)
Lemma query_after_last_detection t st det :
  tracker_inv st.1 ->
  det_label det ∈ selected_objects st.1 ->
  positive_size (det_bbox det) -> (iou_threshold st.1 < 1)%Q ->
  exists j,
    resolved_id (resolve st.1 det) = Some j
    /\ scan_objects (iou_threshold st.1) (det_bbox det) (det_label det)
         (age_object (missing_threshold st.1) (process_detection t st det).2
            <$> tracked_objects (process_detection t st det).1)
       = Some j.
Proof.
  destruct st as [tr m]. cbn [fst]. intros Hinv Hsel Hpos Hthr.
  unfold process_detection, resolve.
  rewrite bool_decide_eq_false_2 by (intros H; by apply H).
  unfold _find_matching_object.
  destruct (scan_objects (iou_threshold tr) (det_bbox det) (det_label det)
              (tracked_objects tr)) as [j|] eqn:Hscan.
  - exists j. split; [done|].
    destruct (scan_objects_split _ _ _ _ _ Hscan)
      as (pre & oj & post & Htab & Hpre & Hc).
    assert (j ∉ keys pre) as Hj.
    { pose proof (ids_in_sequence_NoDup tr (proj1 Hinv)) as Hnd.
      rewrite Htab in Hnd. unfold keys in Hnd. rewrite fmap_app in Hnd.
      apply NoDup_app in Hnd as (_ & Hdisj & _).
      intros Hin. apply (Hdisj j Hin). simpl. apply list_elem_of_here. }
    cbn [fst snd tracked_objects set_tracked_objects].
    rewrite Htab, dict_alter_split by done.
    rewrite fmap_app, fmap_cons.
    rewrite age_object_matched; [| set_solver | done].
    apply scan_objects_first.
    + by apply Forall_age_non_candidate.
    + apply is_candidate_same_box; [done | done | | | done].
      * simpl. by apply is_candidate_active in Hc.
      * simpl. unfold is_candidate in Hc.
        apply andb_prop in Hc as [Hc _]. apply andb_prop in Hc as [_ Hc].
        by apply String.eqb_eq.
  - exists (next_object_id tr). split; [done|].
    cbn [fst snd tracked_objects].
    rewrite dict_set_fresh by (apply ids_in_sequence_fresh, Hinv).
    rewrite fmap_app. cbn [fmap list_fmap].
    rewrite age_object_matched; [| set_solver | done].
    apply scan_objects_first.
    + by apply Forall_age_non_candidate, scan_objects_None.
    + by apply is_candidate_same_box.
Qed.

(** X11: in a tracker started by [__init__] with a threshold below 1, the
    query that the drawing loop of [main] makes after [update] for the
    detection processed last (allowed label, box of positive width and
    height) returns exactly the id that [update] resolved this detection
    to, matched or newly created. *)
Theorem query_returns_id_of_last_detection iou_thr sel mthr frames dets det t :
  det_label det ∈ selected_objects (run (__init__ iou_thr sel mthr) frames) ->
  positive_size (det_bbox det) ->
  (iou_thr < 1)%Q ->
  exists r j,
    last (update_resolutions (run (__init__ iou_thr sel mthr) frames)
            (dets ++ [det]) t) = Some r
    /\ resolved_id r = Some j
    /\ _find_matching_object
         (update (run (__init__ iou_thr sel mthr) frames) (dets ++ [det]) t)
         (det_bbox det) (det_label det)
       = Some j.
Proof.
  intros Hsel Hpos Hthr.
  set (tr := run (__init__ iou_thr sel mthr) frames) in *.
  set (st := detection_loop t (init_first_frame_time t tr, ∅) dets).
  assert (tracker_inv st.1) as Hinv.
  { apply detection_loop_inv. simpl. apply init_first_frame_time_inv.
    apply run_inv, init_inv. }
  destruct (detection_loop_config t dets (init_first_frame_time t tr, ∅))
    as (Hc1 & Hc2 & Hc3 & _).
  fold st in Hc1, Hc2, Hc3. simpl in Hc1, Hc2, Hc3.
  assert (iou_threshold tr = iou_thr) as Hc0
    by exact (proj1 (run_config (__init__ iou_thr sel mthr) frames)).
  destruct (query_after_last_detection t st det) as (j & Hj & Hq).
  - done.
  - by rewrite Hc2.
  - done.
  - by rewrite Hc1, Hc0.
  - exists (resolve st.1 det), j. split; [|split; [done|]].
    + unfold update_resolutions. rewrite resolutions_app. fold st.
      simpl. apply last_snoc.
    + unfold _find_matching_object. rewrite update_unfold. cbn zeta.
      rewrite detection_loop_app. fold st.
      change (detection_loop t st [det]) with (process_detection t st det).
      cbn [tracked_objects iou_threshold set_tracked_objects].
      rewrite (proj1 (process_detection_config t st det)).
      rewrite (proj1 (proj2 (proj2 (process_detection_config t st det)))).
      exact Hq.
Qed.

Lemma query_returns_id_of_last_detection_witness :
  (det_label (car box_b)
     ∈ selected_objects (run demo_tracker [([car box_a], 0%Q)]))
  /\ positive_size (det_bbox (car box_b))
  /\ (1 # 2 < 1)%Q
  /\ exists r j,
       last (update_resolutions (run demo_tracker [([car box_a], 0%Q)])
               ([car box_far] ++ [car box_b]) 1) = Some r
       /\ resolved_id r = Some j
       /\ _find_matching_object
            (update (run demo_tracker [([car box_a], 0%Q)])
               ([car box_far] ++ [car box_b]) 1)
            (det_bbox (car box_b)) (det_label (car box_b))
          = Some j.
Proof.
  assert (det_label (car box_b)
            ∈ selected_objects (run demo_tracker [([car box_a], 0%Q)])) as H1
    by (apply (bool_decide_unpack _); vm_compute; exact I).
  assert (positive_size (det_bbox (car box_b))) as H2 by (simpl; lia).
  assert (1 # 2 < 1)%Q as H3 by (by vm_compute).
  split; [exact H1|]. split; [exact H2|]. split; [exact H3|].
  exact (query_returns_id_of_last_detection (1 # 2) (Some ["car"%string]) 2
           [([car box_a], 0%Q)] [car box_far] (car box_b) 1%Q H1 H2 H3).
Defined.

(** ** The summary of a reachable tracker *)

Lemma summary_append_labels label e (summary : list (string * list SummaryEntry)) :
  (summary_append label e summary).*1
  = if decide (label ∈ summary.*1) then summary.*1 else summary.*1 ++ [label].
Proof.
  induction summary as [|[l es] summary IH].
  - cbn [summary_append fmap list_fmap fst app].
    destruct (decide (label ∈ [])) as [Hin|_]; [|done].
    by apply elem_of_nil in Hin.
  - cbn [summary_append].
    destruct (String.eqb_spec l label) as [->|Hne]; rewrite !fmap_cons; cbn [fst].
    + destruct (decide (label ∈ label :: summary.*1)) as [_|Hnin]; [done|].
      exfalso. apply Hnin, list_elem_of_here.
    + rewrite IH. destruct (decide (label ∈ summary.*1)) as [Hin|Hnin].
      * destruct (decide (label ∈ l :: summary.*1)) as [_|Hnin]; [done|].
        exfalso. by apply Hnin, list_elem_of_further.
      * destruct (decide (label ∈ l :: summary.*1)) as [Hin|_]; [|done].
        apply elem_of_cons in Hin as [->|Hin]; [congruence | done].
Qed.

Lemma summary_append_entries label e (summary : list (string * list SummaryEntry)) :
  concat (summary_append label e summary).*2 ≡ₚ e :: concat summary.*2.
Proof.
  induction summary as [|[l es] summary IH]; simpl; [done|].
  destruct (String.eqb_spec l label) as [->|Hne]; simpl.
  - rewrite <- app_assoc. simpl. symmetry. apply Permutation_middle.
  - rewrite IH. symmetry. apply Permutation_middle.
Qed.

Lemma summary_append_nonempty label e (summary : list (string * list SummaryEntry)) :
  Forall (fun le => le.2 <> []) summary ->
  Forall (fun le => le.2 <> []) (summary_append label e summary).
Proof.
  induction summary as [|[l es] summary IH]; simpl; intros H.
  - by repeat constructor.
  - apply Forall_cons in H as [Hes H].
    destruct (String.eqb_spec l label) as [->|Hne]; constructor; auto.
    simpl. by destruct es.
Qed.

Lemma summary_fold_shape epoch (d : list (Z * ObjInfo)) : forall summary,
  NoDup summary.*1 -> Forall (fun le => le.2 <> []) summary ->
  let summary' :=
    fold_left
      (fun acc entry =>
         summary_append (obj_label entry.2) (summary_entry epoch entry.2) acc)
      d summary in
  NoDup summary'.*1 /\ Forall (fun le => le.2 <> []) summary'
  /\ s_id <$> concat summary'.*2
     ≡ₚ (s_id <$> concat summary.*2) ++ (obj_id <$> d.*2).
Proof.
  induction d as [|[k o] d IH]; intros summary Hnd Hne; simpl.
  - by rewrite app_nil_r.
  - destruct (IH (summary_append (obj_label o) (summary_entry epoch o) summary))
      as (H1 & H2 & H3).
    + rewrite summary_append_labels. case_decide as Hin; [done|].
      apply NoDup_app. split; [done|]. split; [|apply NoDup_singleton].
      intros l Hl Hl'. apply list_elem_of_singleton in Hl' as ->. done.
    + by apply summary_append_nonempty.
    + split; [done|]. split; [done|]. rewrite H3.
      rewrite summary_append_entries. simpl.
      by rewrite <- Permutation_middle.
Qed.

Lemma run_epoch_set iou_thr sel mthr frames :
  frames = []
  \/ exists epoch,
       first_frame_time (run (__init__ iou_thr sel mthr) frames) = Some epoch.
Proof.
  destruct frames as [|[dets t] frames]; [by left|]. right. exists t.
  change (run (__init__ iou_thr sel mthr) ((dets, t) :: frames))
    with (run (update (__init__ iou_thr sel mthr) dets t) frames).
  apply run_first_frame_time. by rewrite update_first_frame_time.
Qed.

(** X12: on a tracker started by [__init__], [get_detailed_summary] never
    fails, also before the first [update] call, where it returns the empty
    summary.  The labels of the summary are pairwise distinct, no label
    has an empty list, and the ids of all entries are, up to order, the
    ids of the table: every tracked object is reported exactly once. *)
Theorem summary_reports_each_object_once iou_thr sel mthr frames :
  get_detailed_summary (__init__ iou_thr sel mthr) = Some []
  /\ exists summary,
       get_detailed_summary (run (__init__ iou_thr sel mthr) frames)
       = Some summary
       /\ NoDup summary.*1
       /\ Forall (fun le => le.2 <> []) summary
       /\ s_id <$> concat summary.*2
          ≡ₚ keys (tracked_objects (run (__init__ iou_thr sel mthr) frames)).
Proof.
  split; [done|].
  assert (obj_id <$> (tracked_objects (run (__init__ iou_thr sel mthr) frames)).*2
          = keys (tracked_objects (run (__init__ iou_thr sel mthr) frames)))
    as Hids.
  { destruct (run_inv (__init__ iou_thr sel mthr) frames (init_inv _ _ _))
      as [_ Hwf].
    unfold keys. rewrite <- list_fmap_compose.
    apply Forall_fmap_ext_1. eapply Forall_impl; [exact Hwf|].
    by intros [k o] [Hk _]. }
  destruct (run_epoch_set iou_thr sel mthr frames) as [->|[epoch Hepoch]].
  - exists []. simpl. split; [done|]. split; [constructor|].
    split; [constructor | done].
  - eexists. split; [by apply get_detailed_summary_Some|].
    destruct (summary_fold_shape epoch
                (tracked_objects (run (__init__ iou_thr sel mthr) frames)) [])
      as (H1 & H2 & H3); [constructor | constructor |].
    split; [done|]. split; [done|]. by rewrite H3, <- Hids.
Qed.

(** ** Number of objects created by one call *)

Lemma length_dict_set {V : Type} k (v : V) d :
  (length (dict_set k v d) <= S (length d))%nat.
Proof.
  induction d as [|[k' v'] d IH]; simpl; [lia|].
  destruct (Z.eqb_spec k' k); simpl; lia.
Qed.

Lemma length_dict_alter {V : Type} (f : V -> V) k d :
  length (dict_alter f k d) = length d.
Proof.
  induction d as [|[k' v'] d IH]; simpl; [done|].
  destruct (Z.eqb_spec k' k); simpl; [done | by rewrite IH].
Qed.

Lemma detection_loop_created_bound t dets : forall st,
  (length (tracked_objects (detection_loop t st dets).1)
   <= length (tracked_objects st.1)
      + length (filter (fun det => det_label det ∈ selected_objects st.1) dets))%nat.
Proof.
  induction dets as [|det dets IH]; intros st; [simpl; lia|].
  unfold detection_loop in *. cbn [fold_left]. etrans; [apply IH|].
  rewrite (proj1 (proj2 (process_detection_config t st det))).
  rewrite filter_cons. destruct st as [tr m]. unfold process_detection.
  cbn [fst]. unfold resolve. case_bool_decide as Hsel.
  - rewrite decide_False by done. simpl. lia.
  - rewrite decide_True by exact Hsel. cbn [length].
    destruct (_find_matching_object _ _ _); cbn [fst tracked_objects set_tracked_objects].
    + rewrite length_dict_alter. lia.
    + pose proof (length_dict_set (next_object_id tr)
        (new_object (next_object_id tr) (det_label det) (det_bbox det) t)
        (tracked_objects tr)). lia.
Qed.

(** X13: one [update] call adds at most as many objects to the table as
    there are detections with a label of [selected_objects]; with no such
    detection the table keeps its size. *)
Theorem update_creates_at_most_allowed tr dets t :
  (length (tracked_objects (update tr dets t))
   <= length (tracked_objects tr)
      + length (filter (fun det => det_label det ∈ selected_objects tr) dets))%nat
  /\ (length (tracked_objects tr)
      <= length (tracked_objects (update tr dets t)))%nat.
Proof.
  rewrite update_unfold. cbn zeta.
  cbn [tracked_objects set_tracked_objects]. rewrite length_fmap. split.
  - apply (detection_loop_created_bound t dets (init_first_frame_time t tr, ∅)).
  - destruct (detection_loop_keys t dets (init_first_frame_time t tr, ∅))
      as [more Hmore].
    cbn [fst tracked_objects init_first_frame_time] in Hmore.
    apply (f_equal length) in Hmore. unfold keys in Hmore.
    rewrite length_app, !length_fmap in Hmore. lia.
Qed.

(** * Properties of the loops of [main] *)

Section LoopsFacts.
Variables Model Frame : Type.
Variable perform_object_detection : Model -> Frame -> list Detection.
Variable model : Model.
Variable start_time : Q.

Lemma drain_queue_last (q : list (Envelope Frame)) (e : Envelope Frame) :
  forall cur skipped_frames,
    drain_queue Frame (q ++ [e]) cur skipped_frames
    = (Some e, skipped_frames + Z.of_nat (length (q ++ [e]))).
Proof.
  induction q as [|e' q IH]; intros cur n.
  - simpl. f_equal.
  - cbn [app drain_queue]. rewrite IH. f_equal.
    cbn [length]. rewrite Nat2Z.inj_succ. lia.
Qed.

(** X14: at catch-up time with a queue that is not empty, the iteration
    discards every queued frame but the newest, processes the newest (one
    [update] call with its detections and its timestamp minus
    [start_time]), leaves the queue empty, counts one processed frame and
    records the clock reading as the last catch-up time. *)
Theorem catchup_processes_newest_frame (current_time : Q)
    (st : LoopState Frame) (q : list (Envelope Frame)) (e : Envelope Frame) :
  frame_queue st = q ++ [e] ->
  Qle_bool catchup_interval (current_time - last_catchup_time st) = true ->
  loop_iteration Model Frame perform_object_detection model start_time
    current_time st
  = Processed
      {| frame_queue := [];
         last_catchup_time := current_time;
         current := Some e;
         processed_frame_count := processed_frame_count st + 1;
         tracker :=
           update (tracker st) (perform_object_detection model (e.2))
             ((e.1).2 - start_time)%Q |}.
Proof.
  intros Hq Hc. unfold loop_iteration. rewrite Hc, Hq, drain_queue_last.
  assert ((0 <? 0 + Z.of_nat (length (q ++ [e]))) = true) as ->.
  { apply Z.ltb_lt. rewrite length_app. simpl. lia. }
  unfold process_frame. cbn [current]. by destruct e as [[fc ts] fr].
Qed.

(** X15: while it is not catch-up time, the frames are processed in queue
    order, one per iteration: after n iterations on a queue of at least n
    frames (that receives no new frame), the first n frames have left the
    queue, the count has grown by n, and the tracker has received the
    [update] calls of these n frames in order. *)
Theorem frames_processed_in_queue_order (clock : list Q) :
  forall st : LoopState Frame,
  Forall (fun current_time =>
            Qle_bool catchup_interval (current_time - last_catchup_time st)
            = false) clock ->
  (length clock <= length (frame_queue st))%nat ->
  exists st',
    iterate Model Frame perform_object_detection model start_time clock st
    = (st', false)
    /\ frame_queue st' = drop (length clock) (frame_queue st)
    /\ last_catchup_time st' = last_catchup_time st
    /\ processed_frame_count st'
       = processed_frame_count st + Z.of_nat (length clock)
    /\ tracker st'
       = run (tracker st)
           (update_args Model Frame perform_object_detection model start_time
              <$> take (length clock) (frame_queue st)).
Proof.
  induction clock as [|now clock IH]; intros st Hc Hlen.
  - exists st. simpl. rewrite drop_0.
    split; [done|]. split; [done|]. split; [done|]. split; [lia | done].
  - apply Forall_cons in Hc as [Hnow Hc].
    destruct (frame_queue st) as [|e q] eqn:Hq; [simpl in Hlen; lia|].
    cbn [iterate]. unfold loop_iteration. rewrite Hnow, Hq.
    unfold process_frame. cbn [current]. destruct e as [[fc ts] fr].
    set (st1 := {| frame_queue := q;
                   last_catchup_time := last_catchup_time st;
                   current := Some (fc, ts, fr);
                   processed_frame_count := processed_frame_count st + 1;
                   tracker := update (tracker st)
                                (perform_object_detection model fr)
                                (ts - start_time)%Q |}).
    destruct (IH st1) as (st' & H1 & H2 & H3 & H4 & H5).
    + exact Hc.
    + simpl in *. lia.
    + exists st'. split; [exact H1|]. split; [exact H2|]. split; [exact H3|].
      split.
      * rewrite H4. simpl. lia.
      * rewrite H5. done.
Qed.

(** The queue after the capture of [reads], from a queue of at most 100
    elements. *)
Lemma capture_loop_spec (reads : list (Q * Frame)) :
  forall frame_count (q : list (Envelope Frame)),
  (length q <= 100)%nat ->
  capture_loop reads (frame_count, q)
  = Some (frame_count + Z.of_nat (length reads),
          drop (length (q ++ stamp frame_count reads) - 100)
            (q ++ stamp frame_count reads)).
Proof.
  induction reads as [|r reads IH]; intros c q Hq.
  - simpl. rewrite app_nil_r, Z.add_0_r.
    replace (length q - 100)%nat with 0%nat by lia. by rewrite drop_0.
  - cbn [capture_loop capture_step stamp].
    rewrite (proj2 (Z.leb_gt _ _)) by lia.
    set (e := (c + 1, r.1, r.2)).
    assert (q ++ e :: stamp (c + 1) reads = (q ++ [e]) ++ stamp (c + 1) reads)
      as -> by (by rewrite <- app_assoc).
    destruct (Z.ltb_spec 100 (Z.of_nat (length (q ++ [e])))) as [Hfull|Hroom].
    + assert (length (q ++ [e]) = 101%nat) as Hlen
        by (rewrite length_app in *; simpl in *; lia).
      destruct (q ++ [e]) as [|e0 q1] eqn:Eq; [done|]. simpl in Hlen.
      cbn [tail]. rewrite IH by lia.
      f_equal. f_equal; [cbn [length]; rewrite Nat2Z.inj_succ; lia|].
      cbn [app length].
      replace (S (length (q1 ++ stamp (c + 1) reads)) - 100)%nat
        with (S (length (q1 ++ stamp (c + 1) reads) - 100))
        by (rewrite length_app; lia).
      done.
    + rewrite IH by lia. f_equal. f_equal.
      cbn [length]. rewrite Nat2Z.inj_succ. lia.
Qed.

Lemma length_stamp (reads : list (Q * Frame)) :
  forall frame_count, length (stamp frame_count reads) = length reads.
Proof. induction reads as [|r reads IH]; intros c; simpl; [done | by rewrite IH]. Qed.

(** X16: [capture_frames], started on a queue of at most 100 elements from
    which nothing is taken meanwhile, never blocks; it numbers the frames
    read 1, 2, ..., returns their number as [frame_count], and leaves in
    the queue the newest 100 (or all, if fewer) of the old elements
    followed by the numbered frames, in order. *)
Theorem capture_keeps_newest_100 (reads : list (Q * Frame))
    (q : list (Envelope Frame)) :
  (length q <= 100)%nat ->
  exists q',
    capture_frames reads q = Some (Z.of_nat (length reads), q')
    /\ q' = drop (length (q ++ stamp 0 reads) - 100) (q ++ stamp 0 reads)
    /\ length q' = Nat.min 100 (length q + length reads).
Proof.
  intros Hq. eexists. split; [|split; [reflexivity|]].
  - unfold capture_frames. by rewrite capture_loop_spec.
  - rewrite length_drop, length_app, length_stamp. lia.
Qed.
End LoopsFacts.

Lemma catchup_processes_newest_frame_witness :
  frame_queue backlog_state = [(1, 1%Q, [car box_a])] ++ [(2, 2%Q, [car box_b])]
  /\ Qle_bool catchup_interval (2 - last_catchup_time backlog_state) = true
  /\ loop_iteration unit (list Detection) demo_detector tt 0 2 backlog_state
     = Processed
         {| frame_queue := [];
            last_catchup_time := 2;
            current := Some (2, 2%Q, [car box_b]);
            processed_frame_count := processed_frame_count backlog_state + 1;
            tracker := update (tracker backlog_state) [car box_b] (2 - 0)%Q |}.
Proof.
  assert (frame_queue backlog_state
          = [(1, 1%Q, [car box_a])] ++ [(2, 2%Q, [car box_b])]) as H1
    by reflexivity.
  assert (Qle_bool catchup_interval (2 - last_catchup_time backlog_state)
          = true) as H2 by reflexivity.
  split; [exact H1|]. split; [exact H2|].
  exact (catchup_processes_newest_frame unit (list Detection) demo_detector tt
           0%Q 2%Q backlog_state [(1, 1%Q, [car box_a])]
           (2, 2%Q, [car box_b]) H1 H2).
Defined.

Lemma frames_processed_in_queue_order_witness :
  Forall (fun current_time =>
            Qle_bool catchup_interval
              (current_time - last_catchup_time backlog_state) = false)
    [1 # 10; 2 # 10]%Q
  /\ (length [1 # 10; 2 # 10]%Q <= length (frame_queue backlog_state))%nat
  /\ exists st',
       iterate unit (list Detection) demo_detector tt 0 [1 # 10; 2 # 10]%Q
         backlog_state = (st', false)
       /\ frame_queue st' = []
       /\ processed_frame_count st' = 2
       /\ tracker st'
          = run demo_tracker [([car box_a], (1 - 0)%Q); ([car box_b], (2 - 0)%Q)].
Proof.
  assert (Forall (fun current_time =>
                    Qle_bool catchup_interval
                      (current_time - last_catchup_time backlog_state) = false)
            [1 # 10; 2 # 10]%Q) as H1 by (repeat constructor).
  assert (length [1 # 10; 2 # 10]%Q <= length (frame_queue backlog_state))%nat
    as H2 by (simpl; lia).
  split; [exact H1|]. split; [exact H2|].
  destruct (frames_processed_in_queue_order unit (list Detection)
              demo_detector tt 0%Q [1 # 10; 2 # 10]%Q backlog_state H1 H2)
    as (st' & E1 & E2 & _ & E4 & E5).
  exists st'. split; [exact E1|]. split; [exact E2|]. split; [exact E4|].
  exact E5.
Defined.

Lemma capture_keeps_newest_100_witness :
  (length (@nil (Envelope (list Detection))) <= 100)%nat
  /\ capture_frames [(1%Q, [car box_a]); (2%Q, [car box_b])] []
     = Some (2, [(1, 1%Q, [car box_a]); (2, 2%Q, [car box_b])]).
Proof.
  assert (length (@nil (Envelope (list Detection))) <= 100)%nat as H
    by (simpl; lia).
  split; [exact H|].
  destruct (capture_keeps_newest_100 (list Detection)
              [(1%Q, [car box_a]); (2%Q, [car box_b])] [] H)
    as (q' & E1 & E2 & _).
  rewrite E1, E2. reflexivity.
Defined.

(** * Properties of [detect_cameras] *)

Section DetectCamerasFacts.
Variable is_opened : Z -> bool.

Lemma detect_cameras_loop_spec (max_cameras : Z) (fuel : nat) :
  forall index available_cameras,
  0 <= index ->
  Z.of_nat (length available_cameras) = index ->
  Z.max 0 (max_cameras - index) < Z.of_nat fuel ->
  exists k : nat,
    detect_cameras_loop is_opened fuel max_cameras index available_cameras
    = Some (available_cameras ++ (Z.of_nat <$> seq (S (Z.to_nat index)) k))
    /\ index + Z.of_nat k <= Z.max index max_cameras
    /\ (forall i, index <= i < index + Z.of_nat k -> is_opened i = true)
    /\ (index + Z.of_nat k < max_cameras ->
        is_opened (index + Z.of_nat k) = false).
Proof.
  induction fuel as [|fuel IH]; intros index avail Hidx Hlen Hfuel; [lia|].
  cbn [detect_cameras_loop]. rewrite Hlen.
  destruct (Z.ltb_spec index max_cameras) as [Hlt|Hge].
  - destruct (is_opened index) eqn:Hopen.
    + destruct (Z.leb_spec max_cameras (index + 1)) as [Hlast|Hmore].
      * exists 1%nat. simpl. split_and!.
        -- do 3 f_equal. lia.
        -- lia.
        -- intros i Hi. by replace i with index by lia.
        -- lia.
      * destruct (IH (index + 1) (avail ++ [index + 1])) as (k & E & H1 & H2 & H3).
        -- lia.
        -- rewrite length_app. simpl. lia.
        -- lia.
        -- exists (S k). split_and!.
           ++ rewrite E, <- app_assoc. f_equal.
              replace (Z.to_nat (index + 1)) with (S (Z.to_nat index)) by lia.
              cbn [seq fmap list_fmap app].
              by replace (Z.of_nat (S (Z.to_nat index))) with (index + 1) by lia.
           ++ lia.
           ++ intros i Hi. destruct (Z.eq_dec i index) as [->|Hne]; [done|].
              apply H2. lia.
           ++ intros Hk. replace (index + Z.of_nat (S k))
                with (index + 1 + Z.of_nat k) by lia. apply H3. lia.
    + exists 0%nat. simpl. rewrite app_nil_r, Z.add_0_r.
      split; [done|]. split; [lia|]. split; [intros i Hi; lia | done].
  - exists 0%nat. simpl. rewrite app_nil_r, Z.add_0_r.
    split; [done|]. split; [lia|]. split; [intros i Hi; lia | lia].
Qed.

(** X17: [detect_cameras] of [gui.py] ends for every [max_cameras] (a fuel
    above it is enough) and returns the camera numbers 1, 2, ..., k, where
    k is at most [max_cameras], every index below k opened, and either k
    reached [max_cameras] or index k did not open; so every number listed,
    less 1, is the index of a camera that opened. *)
Theorem detect_cameras_lists_leading_cameras (max_cameras : Z) :
  exists k : nat,
    (forall fuel, Z.max 0 max_cameras < Z.of_nat fuel ->
       detect_cameras_fuel is_opened fuel max_cameras
       = Some (Z.of_nat <$> seq 1 k))
    /\ Z.of_nat k <= Z.max 0 max_cameras
    /\ (forall n, n ∈ (Z.of_nat <$> seq 1 k) -> is_opened (n - 1) = true)
    /\ (Z.of_nat k < max_cameras -> is_opened (Z.of_nat k) = false).
Proof.
  destruct (detect_cameras_loop_spec max_cameras (S (Z.to_nat (Z.max 0 max_cameras)))
              0 []) as (k & E & H1 & H2 & H3); [lia | done | lia |].
  exists k. split_and!; [|lia| |].
  - intros fuel Hfuel.
    destruct (detect_cameras_loop_spec max_cameras fuel 0 [])
      as (k' & E' & H1' & H2' & H3'); [lia | done | lia |].
    unfold detect_cameras_fuel. rewrite E'. simpl. do 2 f_equal.
    destruct (Nat.lt_trichotomy k k') as [Hlt|[->|Hgt]]; [|done|].
    + exfalso. assert (is_opened (0 + Z.of_nat k) = true) as Ht
        by (apply H2'; lia).
      rewrite H3 in Ht; [done | lia].
    + exfalso. assert (is_opened (0 + Z.of_nat k') = true) as Ht
        by (apply H2; lia).
      rewrite H3' in Ht; [done | lia].
  - intros n Hn. apply list_elem_of_fmap in Hn as (i & -> & Hi).
    apply elem_of_seq in Hi. apply H2. lia.
  - intros Hk. apply (H3 Hk).
Qed.
End DetectCamerasFacts.

Lemma detect_cameras_lists_leading_cameras_witness :
  Z.max 0 10 < Z.of_nat 11
  /\ exists k : nat,
       detect_cameras_fuel (fun index => index <? 2) 11 10
       = Some (Z.of_nat <$> seq 1 k)
       /\ Z.of_nat k <= Z.max 0 10.
Proof.
  assert (Z.max 0 10 < Z.of_nat 11) as H by lia.
  split; [exact H|].
  destruct (detect_cameras_lists_leading_cameras (fun index => index <? 2) 10)
    as (k & E & Hk & _).
  exists k. split; [exact (E 11%nat H) | exact Hk].
Defined.

(** * Properties of the detector's post-processing and of the check boxes *)

Lemma post_process_row_cases shape acc r :
  post_process_row shape acc r = acc
  \/ exists label class_id ymin xmin ymax xmax,
       dict_get class_id COCO_LABELS = Some label
       /\ detection_box r = (ymin, xmin, ymax, xmax)
       /\ post_process_row shape acc r
          = acc ++ [ {| det_bbox :=
                          (py_int (xmin * inject_Z shape.2),
                           py_int (ymin * inject_Z shape.1),
                           py_int (xmax * inject_Z shape.2),
                           py_int (ymax * inject_Z shape.1));
                        det_label := label |} ].
Proof.
  unfold post_process_row.
  destruct (Qgtb (detection_score r) (1 # 2)); [|by left].
  destruct (detection_box r) as [[[ymin xmin] ymax] xmax].
  destruct (dict_get (py_int (detection_class r)) COCO_LABELS) as [label|] eqn:E;
    [|by left].
  destruct (String.eqb label ""); [by left|].
  right. by exists label, (py_int (detection_class r)), ymin, xmin, ymax, xmax.
Qed.

Lemma COCO_LABELS_object_types class_id label :
  dict_get class_id COCO_LABELS = Some label -> label ∈ object_types.
Proof.
  intros H. apply dict_get_Some in H.
  apply (list_elem_of_fmap_2 snd) in H. simpl in H.
  exact H.
Qed.

(** X19: every detection returned by the post-processing of
    [perform_object_detection] carries one of the object types offered by
    the GUIs, whatever the class ids of the model; there are never more
    detections than rows; and each offered object type is the label of some
    class id. *)
Theorem detected_labels_are_object_types shape rows :
  Forall (fun d => det_label d ∈ object_types) (post_process shape rows)
  /\ (length (post_process shape rows) <= length rows)%nat
  /\ Forall (fun obj_type =>
               exists class_id, dict_get class_id COCO_LABELS = Some obj_type)
       object_types.
Proof.
  split; [|split].
  - unfold post_process.
    apply (fold_left_inv (fun acc => Forall (fun d => det_label d ∈ object_types) acc));
      [constructor|].
    intros acc r Hacc.
    destruct (post_process_row_cases shape acc r)
      as [->|(l & c & ymin & xmin & ymax & xmax & Hl & _ & ->)]; [done|].
    apply Forall_app. split; [done|]. constructor; [|constructor].
    simpl. by eapply COCO_LABELS_object_types.
  - unfold post_process.
    assert (forall acc, (length (fold_left (post_process_row shape) rows acc)
                         <= length acc + length rows)%nat) as H.
    { induction rows as [|r rows IH]; intros acc; simpl; [lia|].
      etrans; [apply IH|].
      destruct (post_process_row_cases shape acc r)
        as [->|(l & c & ymin & xmin & ymax & xmax & _ & _ & ->)]; [lia|].
      rewrite length_app. simpl. lia. }
    apply (H []).
  - apply Forall_forall. intros obj_type Hin.
    change object_types with (COCO_LABELS.*2) in Hin.
    apply list_elem_of_fmap in Hin as ([class_id label] & -> & Hin).
    exists class_id. apply dict_get_elem; [|done].
    apply (bool_decide_unpack _). by vm_compute.
Qed.

Lemma py_int_floor x : (0 <= x)%Q -> py_int x = Qfloor x.
Proof.
  destruct x as [n d]. unfold Qle, py_int, Qfloor. simpl. intros H.
  apply Z.quot_div_nonneg; lia.
Qed.

Lemma py_int_mono x y : (0 <= x)%Q -> (x <= y)%Q -> py_int x <= py_int y.
Proof.
  intros Hx Hxy. rewrite !py_int_floor; [|by eapply Qle_trans | done].
  by apply Qfloor_resp_le.
Qed.

Lemma py_int_nonneg x : (0 <= x)%Q -> 0 <= py_int x.
Proof.
  intros Hx. change 0 with (py_int 0). by apply py_int_mono.
Qed.

Lemma py_int_scaled_le x n : (0 <= x)%Q -> (x <= 1)%Q -> 0 <= n ->
  py_int (x * inject_Z n) <= n.
Proof.
  intros H0 H1 Hn.
  assert (py_int (inject_Z n) = n) as E
    by (unfold py_int; simpl; apply Z.quot_1_r).
  rewrite <- E at 2. apply py_int_mono.
  - apply Qmult_le_0_compat; [done|]. unfold Qle. simpl. lia.
  - rewrite <- (Qmult_1_l (inject_Z n)) at 2.
    apply Qmult_le_compat_r; [done|]. unfold Qle. simpl. lia.
Qed.

Lemma py_int_scaled_mono x y n : (0 <= x)%Q -> (x <= y)%Q -> 0 <= n ->
  0 <= py_int (x * inject_Z n) <= py_int (y * inject_Z n).
Proof.
  intros H0 Hxy Hn.
  assert (0 <= inject_Z n)%Q as Hn' by (unfold Qle; simpl; lia).
  split.
  - apply py_int_nonneg. by apply Qmult_le_0_compat.
  - apply py_int_mono; [by apply Qmult_le_0_compat|].
    by apply Qmult_le_compat_r.
Qed.

(** X20: for a frame of height and width at least 0 and rows whose boxes
    are fractions of the frame with ordered corners, every box returned by
    the post-processing has 0 <= xmin <= xmax <= width and
    0 <= ymin <= ymax <= height.  The two corners may coincide: the
    truncation can return a box of area 0. *)
Theorem detected_boxes_in_frame shape rows :
  0 <= shape.1 -> 0 <= shape.2 ->
  Forall normalized_row rows ->
  Forall (fun d => box_in_frame shape (det_bbox d)) (post_process shape rows).
Proof.
  intros Hh Hw Hrows. unfold post_process.
  assert (forall acc,
            Forall (fun d => box_in_frame shape (det_bbox d)) acc ->
            Forall (fun d => box_in_frame shape (det_bbox d))
              (fold_left (post_process_row shape) rows acc)) as H.
  { induction Hrows as [|r rows Hr Hrows IH]; intros acc Hacc; [done|].
    simpl. apply IH.
    destruct (post_process_row_cases shape acc r)
      as [->|(l & c & ymin & xmin & ymax & xmax & _ & Hbox & ->)]; [done|].
    apply Forall_app. split; [done|]. constructor; [|constructor].
    unfold normalized_row in Hr. rewrite Hbox in Hr.
    destruct Hr as [(Hx0 & Hx1 & Hx2) (Hy0 & Hy1 & Hy2)].
    unfold box_in_frame. cbn [det_bbox fst snd].
    pose proof (py_int_scaled_mono xmin xmax shape.2 Hx0 Hx1 Hw).
    pose proof (py_int_scaled_mono ymin ymax shape.1 Hy0 Hy1 Hh).
    pose proof (py_int_scaled_le xmax shape.2 (Qle_trans _ _ _ Hx0 Hx1) Hx2 Hw).
    pose proof (py_int_scaled_le ymax shape.1 (Qle_trans _ _ _ Hy0 Hy1) Hy2 Hh).
    lia. }
  apply H. constructor.
Qed.

Lemma detected_boxes_in_frame_witness :
  0 <= (480, 640).1 /\ 0 <= (480, 640).2
  /\ Forall normalized_row
       [mkRawDetection (9 # 10) (1 # 4, 1 # 4, 1 # 2, 1 # 2)%Q 3;
        mkRawDetection (9 # 10) (1 # 4, 1 # 4, 1 # 2, 1 # 2)%Q 5;
        mkRawDetection (1 # 10) (1 # 4, 1 # 4, 1 # 2, 1 # 2)%Q 3]
  /\ post_process (480, 640)
       [mkRawDetection (9 # 10) (1 # 4, 1 # 4, 1 # 2, 1 # 2)%Q 3;
        mkRawDetection (9 # 10) (1 # 4, 1 # 4, 1 # 2, 1 # 2)%Q 5;
        mkRawDetection (1 # 10) (1 # 4, 1 # 4, 1 # 2, 1 # 2)%Q 3]
     = [car (160, 120, 320, 240)]
  /\ Forall (fun d => box_in_frame (480, 640) (det_bbox d))
       (post_process (480, 640)
          [mkRawDetection (9 # 10) (1 # 4, 1 # 4, 1 # 2, 1 # 2)%Q 3;
           mkRawDetection (9 # 10) (1 # 4, 1 # 4, 1 # 2, 1 # 2)%Q 5;
           mkRawDetection (1 # 10) (1 # 4, 1 # 4, 1 # 2, 1 # 2)%Q 3]).
Proof.
  assert (0 <= (480, 640).1) as H1 by (simpl; lia).
  assert (0 <= (480, 640).2) as H2 by (simpl; lia).
  assert (Forall normalized_row
            [mkRawDetection (9 # 10) (1 # 4, 1 # 4, 1 # 2, 1 # 2)%Q 3;
             mkRawDetection (9 # 10) (1 # 4, 1 # 4, 1 # 2, 1 # 2)%Q 5;
             mkRawDetection (1 # 10) (1 # 4, 1 # 4, 1 # 2, 1 # 2)%Q 3]) as H3
    by (repeat constructor; by vm_compute).
  split; [exact H1|]. split; [exact H2|]. split; [exact H3|].
  split; [vm_compute; reflexivity|].
  exact (detected_boxes_in_frame (480, 640) _ H1 H2 H3).
Defined.

(** ** Check boxes *)

Lemma filter_all_true (vars : list (string * bool)) :
  forallb snd vars = true -> filter (fun e => e.2 = true) vars = vars.
Proof.
  induction vars as [|[k b] vars IH]; [done|].
  cbn [forallb snd]. intros H. apply andb_prop in H as [-> H].
  rewrite filter_cons_True by done. by rewrite IH.
Qed.

Lemma filter_not_all_true (vars : list (string * bool)) :
  forallb snd vars = false ->
  (length (filter (fun e => e.2 = true) vars) < length vars)%nat.
Proof.
  induction vars as [|[k b] vars IH]; [done|].
  cbn [forallb snd]. intros H. destruct b.
  - rewrite filter_cons_True by done. cbn [length andb] in *.
    apply IH in H. lia.
  - rewrite filter_cons_False by done. cbn [length].
    pose proof (length_filter (fun e : string * bool => e.2 = true) vars). lia.
Qed.

Lemma filter_all_set (b : bool) (vars : list (string * bool)) :
  filter (fun e => e.2 = true) ((fun e : string * bool => (e.1, b)) <$> vars)
  = if b then (fun e : string * bool => (e.1, b)) <$> vars else [].
Proof.
  induction vars as [|e vars IH]; [by destruct b|].
  rewrite fmap_cons. destruct b.
  - rewrite filter_cons_True by done. by rewrite IH.
  - rewrite filter_cons_False by done. exact IH.
Qed.

(** X18: the "All Object Types" handler leaves every type selected when
    the box is checked and none when it is not; the handler of the single
    boxes leaves "All Object Types" checked exactly when the selection
    passed on by [start_detection] holds every type; [create_widgets] of
    [gui.py] builds no check box when no camera was detected and otherwise,
    like the one of [video_file.py], starts with every object type
    selected. *)
Theorem check_boxes_consistent st available_cameras :
  gui_selected_objects (toggle_all_objects st)
    = (if all_objects_var st then (object_vars st).*1 else [])
  /\ (all_objects_var (update_all_objects_state st) = true
      <-> gui_selected_objects (update_all_objects_state st)
          = (object_vars st).*1)
  /\ match create_widgets available_cameras with
     | None => available_cameras = []
     | Some st0 =>
         available_cameras <> []
         /\ all_objects_var st0 = true
         /\ gui_selected_objects st0 = object_types
     end
  /\ gui_selected_objects create_widgets_video_file = object_types.
Proof.
  split; [|split; [|split]].
  - unfold gui_selected_objects, toggle_all_objects. cbn [object_vars].
    rewrite filter_all_set. destruct (all_objects_var st); [|done].
    rewrite <- list_fmap_compose. by apply list_fmap_ext.
  - unfold gui_selected_objects, update_all_objects_state. simpl. split.
    + intros H. by rewrite filter_all_true.
    + intros H. destruct (forallb snd (object_vars st)) eqn:E; [done|].
      apply filter_not_all_true in E. apply (f_equal length) in H.
      rewrite !length_fmap in H. lia.
  - destruct available_cameras as [|c cs]; [done|]. cbn [create_widgets].
    split; [done|]. split; [done | by vm_compute].
  - by vm_compute.
Qed.

(** * Further properties: frame effects of [update] and start of the loop *)

(** X21: an [update] call changes nothing but the missing streak and the
    missing flag of an object that none of its detections resolved to: id,
    label, bbox, first_seen, last_seen and total_time stay as they were. *)
Theorem unmatched_object_keeps_observation tr dets t i o :
  dict_get i (tracked_objects tr) = Some o ->
  i ∉ matched_ids_of tr dets t ->
  exists o',
    dict_get i (tracked_objects (update tr dets t)) = Some o'
    /\ observation o' = observation o.
Proof.
  intros Ho Hi. rewrite update_unfold. cbn zeta.
  cbn [tracked_objects set_tracked_objects]. unfold matched_ids_of in Hi.
  rewrite dict_get_age, detection_loop_other by done.
  cbn [fst tracked_objects init_first_frame_time]. rewrite Ho.
  cbn [fmap option_fmap option_map]. eexists. split; [done|].
  unfold observation, age_object. by repeat case_match.
Qed.

Lemma unmatched_object_keeps_observation_witness :
  dict_get 1 (tracked_objects (run demo_tracker [([car box_a], 0%Q)]))
    = Some (new_object 1 "car" box_a 0)
  /\ (1 ∉ matched_ids_of (run demo_tracker [([car box_a], 0%Q)])
            [car box_far] 1)
  /\ exists o',
       dict_get 1
         (tracked_objects
            (update (run demo_tracker [([car box_a], 0%Q)]) [car box_far] 1))
       = Some o'
       /\ observation o' = observation (new_object 1 "car" box_a 0).
Proof.
  assert (dict_get 1 (tracked_objects (run demo_tracker [([car box_a], 0%Q)]))
          = Some (new_object 1 "car" box_a 0)) as H1
    by (vm_compute; reflexivity).
  assert (1 ∉ matched_ids_of (run demo_tracker [([car box_a], 0%Q)])
                [car box_far] 1) as H2
    by (apply (bool_decide_unpack _); vm_compute; exact I).
  split; [exact H1|]. split; [exact H2|].
  exact (unmatched_object_keeps_observation
           (run demo_tracker [([car box_a], 0%Q)]) [car box_far] 1%Q 1
           (new_object 1 "car" box_a 0) H1 H2).
Defined.

Lemma process_detection_seen_now t st det :
  tracker_inv st.1 -> seen_now t st -> seen_now t (process_detection t st det).
Proof.
  destruct st as [tr m]. simpl. intros Hinv Hm.
  unfold process_detection. destruct (resolve tr det) as [|j|n] eqn:Hres.
  - done.
  - destruct (resolve_Matched_get _ _ _ Hinv Hres) as (oj & Hj & _).
    intros i Hi. simpl in *. rewrite dict_get_alter.
    destruct (decide (i = j)) as [->|Hne].
    + rewrite Hj. simpl. by eexists.
    + apply Hm. apply elem_of_union in Hi as [Hi|Hi]; [|done].
      by apply elem_of_singleton in Hi.
  - intros i Hi. simpl in *. rewrite dict_get_set.
    destruct (decide (i = n)) as [->|Hne].
    + by eexists.
    + apply Hm. apply elem_of_union in Hi as [Hi|Hi]; [|done].
      by apply elem_of_singleton in Hi.
Qed.

(** X22: in a tracker started by [__init__], every object that a detection
    of an [update] call resolved to, matched or created, has last_seen
    equal to the frame time of the call afterwards. *)
Theorem matched_object_seen_at_frame_time iou_thr sel mthr frames dets t i :
  i ∈ matched_ids_of (run (__init__ iou_thr sel mthr) frames) dets t ->
  exists o,
    dict_get i
      (tracked_objects (update (run (__init__ iou_thr sel mthr) frames) dets t))
    = Some o
    /\ last_seen o = t.
Proof.
  set (tr := run (__init__ iou_thr sel mthr) frames).
  intros Hi. unfold matched_ids_of in Hi. rewrite update_unfold. cbn zeta.
  cbn [tracked_objects set_tracked_objects].
  set (st := detection_loop t (init_first_frame_time t tr, ∅) dets) in *.
  assert (tracker_inv st.1 /\ seen_now t st) as [_ Hseen].
  { unfold st, detection_loop. apply fold_left_inv.
    - split.
      + simpl. apply init_first_frame_time_inv, run_inv, init_inv.
      + intros j Hj. simpl in Hj. by apply not_elem_of_empty in Hj.
    - intros st' det [H1 H2]. split.
      + by apply process_detection_inv.
      + by apply process_detection_seen_now. }
  destruct (Hseen i Hi) as (o & Ho & Hlast).
  rewrite dict_get_age, Ho. cbn [fmap option_fmap option_map].
  eexists. split; [done|].
  by rewrite (proj1 (proj2 (age_object_times (missing_threshold st.1) st.2 i o))).
Qed.

Lemma matched_object_seen_at_frame_time_witness :
  1 ∈ matched_ids_of (run demo_tracker [([car box_a], 0%Q)]) [car box_b] 7
  /\ exists o,
       dict_get 1
         (tracked_objects
            (update (run demo_tracker [([car box_a], 0%Q)]) [car box_b] 7))
       = Some o
       /\ last_seen o = 7%Q.
Proof.
  assert (1 ∈ matched_ids_of (run demo_tracker [([car box_a], 0%Q)])
                [car box_b] 7) as H
    by (apply (bool_decide_unpack _); vm_compute; exact I).
  split; [exact H|].
  exact (matched_object_seen_at_frame_time (1 # 2) (Some ["car"%string]) 2
           [([car box_a], 0%Q)] [car box_b] 7%Q 1 H).
Defined.

Section StartFacts.
Variables Model Frame : Type.
Variable perform_object_detection : Model -> Frame -> list Detection.
Variable model : Model.
Variable start_time : Q.

(** X23: a loop that has not yet taken any frame and whose queue stays
    empty idles at every clock reading before catch-up time and, at the
    first reading at which catch-up is due, ends with the error of the
    unbound [timestamp]: no frame is counted and the tracker is not
    called. *)
Theorem empty_start_ends_at_first_catchup (early : list Q) (late : Q)
    (rest : list Q) (st : LoopState Frame) :
  frame_queue st = [] ->
  current st = None ->
  Forall (fun current_time =>
            Qle_bool catchup_interval (current_time - last_catchup_time st)
            = false) early ->
  Qle_bool catchup_interval (late - last_catchup_time st) = true ->
  iterate Model Frame perform_object_detection model start_time
    (early ++ late :: rest) st
  = ({| frame_queue := [];
        last_catchup_time := last_catchup_time st;
        current := None;
        processed_frame_count := processed_frame_count st;
        tracker := tracker st |}, true).
Proof.
  intros Hq Hcur Hearly Hlate.
  induction Hearly as [|now early Hnow Hearly IH].
  - cbn [app iterate]. unfold loop_iteration. rewrite Hlate, Hq.
    cbn [drain_queue]. unfold process_frame. cbn [current]. by rewrite Hcur.
  - cbn [app iterate]. unfold loop_iteration. rewrite Hnow, Hq.
    exact IH.
Qed.
End StartFacts.

Lemma empty_start_ends_at_first_catchup_witness :
  frame_queue starting_state = []
  /\ current starting_state = None
  /\ Forall (fun current_time =>
               Qle_bool catchup_interval
                 (current_time - last_catchup_time starting_state) = false)
       [1 # 10; 3 # 10]%Q
  /\ Qle_bool catchup_interval ((6 # 10) - last_catchup_time starting_state)
     = true
  /\ iterate unit (list Detection) demo_detector tt 0
       ([1 # 10; 3 # 10] ++ (6 # 10) :: [7 # 10])%Q starting_state
     = (starting_state, true).
Proof.
  assert (frame_queue starting_state = []) as H1 by reflexivity.
  assert (current starting_state = None) as H2 by reflexivity.
  assert (Forall (fun current_time =>
                    Qle_bool catchup_interval
                      (current_time - last_catchup_time starting_state) = false)
            [1 # 10; 3 # 10]%Q) as H3 by (repeat constructor).
  assert (Qle_bool catchup_interval
            ((6 # 10) - last_catchup_time starting_state) = true) as H4
    by reflexivity.
  split; [exact H1|]. split; [exact H2|]. split; [exact H3|].
  split; [exact H4|].
  exact (empty_start_ends_at_first_catchup unit (list Detection) demo_detector
           tt 0%Q [1 # 10; 3 # 10]%Q (6 # 10)%Q [7 # 10]%Q starting_state
           H1 H2 H3 H4).
Defined.

(** * Retired objects and identifier allocation, in full *)

Lemma non_candidates_spec tr bbox label (d : list (Z * ObjInfo)) :
  Forall (fun e => is_candidate (iou_threshold tr) bbox label e.2 = false) d
  <-> Forall (fun e => ~ candidate tr bbox label e.2) d.
Proof.
  split; intros H; (eapply Forall_impl; [exact H|]); intros e He; simpl in *.
  - intros Hc. apply is_candidate_spec in Hc. congruence.
  - apply not_true_iff_false. intros Hc. by apply He, is_candidate_spec.
Qed.

Lemma update_single_matched_keys tr det t j :
  resolve tr det = Matched j ->
  keys (tracked_objects (update tr [det] t)) = keys (tracked_objects tr).
Proof.
  intros Hres. rewrite update_unfold. cbn zeta.
  cbn [set_tracked_objects tracked_objects]. rewrite keys_age.
  unfold detection_loop. cbn [fold_left]. unfold process_detection.
  replace (resolve (init_first_frame_time t tr) det)
    with (Matched j) by (by rewrite <- Hres).
  cbn [fst tracked_objects set_tracked_objects init_first_frame_time].
  apply keys_dict_alter.
Qed.

Lemma update_single_created_record tr det t :
  resolve tr det = Created (next_object_id tr) ->
  dict_get (next_object_id tr) (tracked_objects (update tr [det] t))
  = Some (new_object (next_object_id tr) (det_label det) (det_bbox det) t).
Proof.
  intros Hres. rewrite update_unfold. cbn zeta.
  cbn [set_tracked_objects tracked_objects]. rewrite dict_get_age.
  unfold detection_loop. cbn [fold_left]. unfold process_detection.
  replace (resolve (init_first_frame_time t tr) det)
    with (Created (next_object_id tr)) by (by rewrite <- Hres).
  cbn [fst snd tracked_objects init_first_frame_time missing_threshold].
  rewrite dict_get_set, decide_True by done.
  cbn [fmap option_fmap option_map].
  rewrite age_object_matched; [done | set_solver | done].
Qed.

(** C5, amended: in a tracker started by [__init__], a Retired object is
    returned by no query of the matcher and resolved to by no detection of
    any later [update] call, which leaves its record unchanged.  A
    detection with the bbox and label of the Retired object does one of two
    things.  If no object of the table is a candidate for it (Active, same
    label, IoU above the threshold), it creates a new object under the
    next, unused id: an [update] call with that detection appends this id
    to the table, with a fresh record at that bbox.  Otherwise it matches
    the first candidate of the table, which is not the Retired object, and
    the call creates nothing. *)
Theorem retired_never_matched iou_thr sel mthr frames i o t :
  dict_get i (tracked_objects (run (__init__ iou_thr sel mthr) frames)) = Some o ->
  missing o = true ->
  (forall bbox label,
     _find_matching_object (run (__init__ iou_thr sel mthr) frames) bbox label
     <> Some i)
  /\ (forall dets t',
       (i ∉ matched_ids_of (run (__init__ iou_thr sel mthr) frames) dets t')
       /\ dict_get i
            (tracked_objects
               (update (run (__init__ iou_thr sel mthr) frames) dets t'))
          = Some o)
  /\ ((Forall (fun e => ~ candidate (run (__init__ iou_thr sel mthr) frames)
                          (obj_bbox o) (obj_label o) e.2)
         (tracked_objects (run (__init__ iou_thr sel mthr) frames))
       /\ resolve (run (__init__ iou_thr sel mthr) frames)
            (mkDetection (obj_bbox o) (obj_label o))
          = Created (next_object_id (run (__init__ iou_thr sel mthr) frames))
       /\ (next_object_id (run (__init__ iou_thr sel mthr) frames)
            ∉ keys (tracked_objects (run (__init__ iou_thr sel mthr) frames)))
       /\ keys (tracked_objects
                  (update (run (__init__ iou_thr sel mthr) frames)
                     [mkDetection (obj_bbox o) (obj_label o)] t))
          = keys (tracked_objects (run (__init__ iou_thr sel mthr) frames))
            ++ [next_object_id (run (__init__ iou_thr sel mthr) frames)]
       /\ dict_get (next_object_id (run (__init__ iou_thr sel mthr) frames))
            (tracked_objects
               (update (run (__init__ iou_thr sel mthr) frames)
                  [mkDetection (obj_bbox o) (obj_label o)] t))
          = Some (new_object
                    (next_object_id (run (__init__ iou_thr sel mthr) frames))
                    (obj_label o) (obj_bbox o) t))
      \/ (exists pre j oj post,
            tracked_objects (run (__init__ iou_thr sel mthr) frames)
              = pre ++ (j, oj) :: post
            /\ Forall (fun e => ~ candidate (run (__init__ iou_thr sel mthr) frames)
                                  (obj_bbox o) (obj_label o) e.2) pre
            /\ candidate (run (__init__ iou_thr sel mthr) frames)
                 (obj_bbox o) (obj_label o) oj
            /\ j <> i
            /\ resolve (run (__init__ iou_thr sel mthr) frames)
                 (mkDetection (obj_bbox o) (obj_label o))
               = Matched j
            /\ keys (tracked_objects
                       (update (run (__init__ iou_thr sel mthr) frames)
                          [mkDetection (obj_bbox o) (obj_label o)] t))
               = keys (tracked_objects (run (__init__ iou_thr sel mthr) frames)))).
Proof.
  set (tr := run (__init__ iou_thr sel mthr) frames).
  intros Ho Hret.
  assert (tracker_inv tr) as Hinv by apply run_inv, init_inv.
  split; [|split].
  - intros bbox label Hfind. apply scan_objects_Some in Hfind as (o' & Hin & Hc).
    apply is_candidate_active in Hc.
    apply dict_get_elem in Hin; [|apply ids_in_sequence_NoDup, Hinv].
    congruence.
  - intros dets t'. split.
    + by eapply retired_unmatched.
    + by apply update_retired.
  - assert (obj_label o ∈ selected_objects tr) as Hsel.
    { destruct Hinv as [_ Hwf]. unfold objects_well_formed in Hwf.
      rewrite Forall_forall in Hwf.
      apply dict_get_Some in Ho. by destruct (Hwf _ Ho). }
    set (det := mkDetection (obj_bbox o) (obj_label o)).
    assert (resolve tr det
            = match scan_objects (iou_threshold tr) (obj_bbox o) (obj_label o)
                      (tracked_objects tr) with
              | Some j => Matched j
              | None => Created (next_object_id tr)
              end) as Hres.
    { unfold resolve. cbn [det det_label det_bbox].
      by rewrite bool_decide_eq_false_2 by (intros H; by apply H). }
    destruct (scan_objects (iou_threshold tr) (obj_bbox o) (obj_label o)
                (tracked_objects tr)) as [j|] eqn:Hscan.
    + right.
      destruct (scan_objects_split _ _ _ _ _ Hscan)
        as (pre & oj & post & Htab & Hpre & Hc).
      exists pre, j, oj, post. split; [done|].
      split; [by apply non_candidates_spec|].
      split; [by apply is_candidate_spec|].
      split; [|split; [done | by eapply update_single_matched_keys]].
      intros ->. apply is_candidate_active in Hc.
      assert (dict_get i (tracked_objects tr) = Some oj) as Hoj.
      { apply dict_get_elem; [apply ids_in_sequence_NoDup, Hinv|].
        rewrite Htab. apply elem_of_app. right. apply list_elem_of_here. }
      congruence.
    + left. split; [by apply non_candidates_spec, scan_objects_None|].
      split; [done|].
      split; [apply ids_in_sequence_fresh, Hinv|].
      split; [by apply update_single_created|].
      by apply (update_single_created_record tr det t).
Qed.

Lemma retired_never_matched_witness :
  dict_get 1 (tracked_objects (run demo_tracker retire_frames)) = Some retired_car
  /\ missing retired_car = true
  /\ _find_matching_object (run demo_tracker retire_frames) box_a "car" <> Some 1
  /\ resolve (run demo_tracker retire_frames) (car box_a) = Created 2
  /\ keys (tracked_objects (update (run demo_tracker retire_frames) [car box_a] 3))
     = [1; 2].
Proof.
  assert (dict_get 1 (tracked_objects (run demo_tracker retire_frames))
          = Some retired_car) as H1 by (vm_compute; reflexivity).
  assert (missing retired_car = true) as H2 by reflexivity.
  split; [exact H1|]. split; [exact H2|].
  split; [|split; vm_compute; reflexivity].
  exact (proj1 (retired_never_matched (1 # 2) (Some ["car"%string]) 2
                  retire_frames 1 retired_car 3%Q H1 H2) box_a "car"%string).
Defined.

(** ** Identifier allocation *)

Lemma created_ids_consecutive t dets : forall st,
  omap created_id (resolutions t st dets)
  = seqZ (next_object_id st.1)
      (Z.of_nat (length (omap created_id (resolutions t st dets)))).
Proof.
  induction dets as [|det dets IH]; intros st; [done|].
  cbn [resolutions]. specialize (IH (process_detection t st det)).
  rewrite process_detection_next_id in IH.
  destruct (resolve st.1 det) as [|j|n] eqn:Hres; cbn [omap list_omap created_id].
  - exact IH.
  - exact IH.
  - apply resolve_Created in Hres as ->. cbn [length].
    rewrite seqZ_cons by lia. f_equal.
    replace (Z.pred (Z.of_nat (S (length (omap created_id
               (resolutions t (process_detection t st det) dets))))))
      with (Z.of_nat (length (omap created_id
               (resolutions t (process_detection t st det) dets)))) by lia.
    exact IH.
Qed.

Lemma detection_loop_keys_created t dets : forall st,
  tracker_inv st.1 ->
  keys (tracked_objects (detection_loop t st dets).1)
  = keys (tracked_objects st.1) ++ omap created_id (resolutions t st dets).
Proof.
  induction dets as [|det dets IH]; intros st Hinv.
  - simpl. by rewrite app_nil_r.
  - unfold detection_loop in *. cbn [fold_left resolutions].
    rewrite IH by (by apply process_detection_inv).
    destruct st as [tr m]. cbn [fst] in *. unfold process_detection at 1.
    destruct (resolve tr det) as [|j|n] eqn:Hres;
      cbn [fst tracked_objects set_tracked_objects omap list_omap created_id].
    + done.
    + by rewrite keys_dict_alter.
    + apply resolve_Created in Hres as ->.
      rewrite dict_set_fresh by (apply ids_in_sequence_fresh, Hinv).
      unfold keys. rewrite fmap_app, <- app_assoc. done.
Qed.

Lemma resolutions_skipped t pre rest : forall st,
  Forall (fun det => det_label det ∉ selected_objects st.1) pre ->
  resolutions t st (pre ++ rest)
    = replicate (length pre) Skipped ++ resolutions t st rest
  /\ detection_loop t st (pre ++ rest) = detection_loop t st rest.
Proof.
  induction pre as [|det pre IH]; intros st Hpre; [done|].
  apply Forall_cons in Hpre as [Hdet Hpre].
  assert (process_detection t st det = st) as Hstep.
  { destruct st as [tr m]. unfold process_detection.
    by rewrite resolve_disallowed. }
  cbn [app resolutions length replicate]. unfold detection_loop.
  cbn [fold_left]. rewrite Hstep, resolve_disallowed by done.
  destruct (IH st Hpre) as [-> IH2]. split; [done | exact IH2].
Qed.

(** The identity of a record: what is written at creation only. *)
Lemma detection_loop_identity t dets st k o :
  tracker_inv st.1 ->
  dict_get k (tracked_objects st.1) = Some o ->
  exists o', dict_get k (tracked_objects (detection_loop t st dets).1) = Some o'
    /\ (obj_id o', obj_label o', first_seen o')
       = (obj_id o, obj_label o, first_seen o).
Proof.
  intros Hinv Ho.
  assert (tracker_inv (detection_loop t st dets).1
          /\ exists o', dict_get k (tracked_objects (detection_loop t st dets).1)
                        = Some o'
               /\ (obj_id o', obj_label o', first_seen o')
                  = (obj_id o, obj_label o, first_seen o)) as [_ H]; [|exact H].
  unfold detection_loop. apply fold_left_inv.
  - split; [done|]. by exists o.
  - intros st' det (H1 & o' & H2 & H3).
    split; [by apply process_detection_inv|].
    destruct (process_detection_field
                (fun o => (obj_id o, obj_label o, first_seen o))
                (fun _ _ _ => eq_refl) t st' det k o' H1 H2) as (o'' & H4 & H5).
    exists o''. split; [done | congruence].
Qed.

Lemma age_object_identity thr m k o :
  let o' := (age_object thr m (k, o)).2 in
  obj_id o' = obj_id o /\ obj_label o' = obj_label o
  /\ first_seen o' = first_seen o.
Proof. unfold age_object. by repeat case_match. Qed.

(** Records present before an [update] call are still there after it. *)
Lemma update_keeps_records tr dets t :
  tracker_inv tr ->
  Forall (fun e =>
            exists o',
              dict_get e.1 (tracked_objects (update tr dets t)) = Some o'
              /\ obj_id o' = obj_id e.2 /\ obj_label o' = obj_label e.2
              /\ first_seen o' = first_seen e.2
              /\ (missing e.2 = true -> o' = e.2))
    (tracked_objects tr).
Proof.
  intros Hinv. apply Forall_forall. intros [k o] Hin. cbn [fst snd].
  assert (dict_get k (tracked_objects tr) = Some o) as Ho
    by (apply dict_get_elem; [apply ids_in_sequence_NoDup, Hinv | done]).
  destruct (detection_loop_identity t dets (init_first_frame_time t tr, ∅) k o)
    as (o1 & Ho1 & Hid); [by apply init_first_frame_time_inv | done |].
  injection Hid as Hid1 Hid2 Hid3.
  assert (exists o', dict_get k (tracked_objects (update tr dets t)) = Some o'
            /\ obj_id o' = obj_id o /\ obj_label o' = obj_label o
            /\ first_seen o' = first_seen o) as (o' & Ho' & H1 & H2 & H3).
  { rewrite update_unfold. cbn zeta. cbn [tracked_objects set_tracked_objects].
    rewrite dict_get_age, Ho1. cbn [fmap option_fmap option_map].
    eexists. split; [done|].
    destruct (age_object_identity
                (missing_threshold
                   (detection_loop t (init_first_frame_time t tr, ∅) dets).1)
                (detection_loop t (init_first_frame_time t tr, ∅) dets).2 k o1)
      as (-> & -> & ->). done. }
  exists o'. split; [done|]. split; [done|]. split; [done|]. split; [done|].
  intros Hret. pose proof (update_retired tr dets t k o Hinv Ho Hret) as Hsame.
  congruence.
Qed.

(** Records created by an [update] call are in the table after it. *)
Lemma update_stores_created tr dets t :
  tracker_inv tr ->
  Forall (fun n =>
            exists o',
              dict_get n (tracked_objects (update tr dets t)) = Some o'
              /\ obj_id o' = n /\ first_seen o' = t /\ missing o' = false)
    (omap created_id (update_resolutions tr dets t)).
Proof.
  intros Hinv. apply Forall_forall. intros n Hn.
  assert (n ∈ matched_ids_of tr dets t) as Hm.
  { unfold matched_ids_of. rewrite detection_loop_matched_ids.
    apply elem_of_union. left. apply elem_of_list_to_set.
    apply list_elem_of_omap in Hn as (r & Hr & Hc).
    apply list_elem_of_omap. exists r. split; [done|].
    by destruct r. }
  destruct (update_matched tr dets t n Hinv Hm) as (o' & Ho' & Hact & _).
  exists o'. split; [done|]. split; [|split; [|done]].
  - destruct (update_inv tr dets t Hinv) as [_ Hwf].
    unfold objects_well_formed in Hwf. rewrite Forall_forall in Hwf.
    apply dict_get_Some in Ho'. by destruct (Hwf _ Ho').
  - pose proof (update_first_seen tr dets t n o' Hinv Ho') as Hfs.
    rewrite dict_get_None in Hfs; [done|]. intros Hin.
    apply (ids_in_sequence_bounds tr n (proj1 Hinv)) in Hin.
    destruct (created_ids_increasing t dets (init_first_frame_time t tr, ∅))
      as [Hge _].
    rewrite Forall_forall in Hge. apply Hge in Hn. simpl in Hn. lia.
Qed.

(** C6: on a tracker started by [__init__], after any sequence of [update]
    calls the table holds exactly the ids 1, 2, ..., n in creation order,
    each record carries its own id, and the next id to allocate is n + 1.
    In a further [update] call the objects created receive, in the order
    of their detections, the consecutive ids n + 1, n + 2, ...; the table
    after the call is the table before it followed by these ids, so no id
    is reused and none is removed; every record present before the call is
    still stored under its id with the same id, label and first_seen, and
    unchanged if it was Retired; every created id holds an Active record
    carrying that id and first seen at the frame time.  Creation does take
    place: the first detection of a call that has an allowed label and no
    candidate in the table is given the next id, which is 1 as long as the
    table is empty. *)
Theorem ids_sequential_never_deleted iou_thr sel mthr frames :
  keys (tracked_objects (run (__init__ iou_thr sel mthr) frames))
    = Z.of_nat <$> seq 1 (length (tracked_objects (run (__init__ iou_thr sel mthr) frames)))
  /\ Forall (fun e => obj_id e.2 = e.1) (tracked_objects (run (__init__ iou_thr sel mthr) frames))
  /\ next_object_id (run (__init__ iou_thr sel mthr) frames) = Z.of_nat (length (tracked_objects (run (__init__ iou_thr sel mthr) frames))) + 1
  /\ (tracked_objects (run (__init__ iou_thr sel mthr) frames) = [] -> next_object_id (run (__init__ iou_thr sel mthr) frames) = 1)
  /\ (forall dets t,
       omap created_id (update_resolutions (run (__init__ iou_thr sel mthr) frames) dets t)
         = seqZ (next_object_id (run (__init__ iou_thr sel mthr) frames))
             (Z.of_nat (length (omap created_id (update_resolutions (run (__init__ iou_thr sel mthr) frames) dets t))))
       /\ keys (tracked_objects (update (run (__init__ iou_thr sel mthr) frames) dets t))
          = keys (tracked_objects (run (__init__ iou_thr sel mthr) frames))
            ++ omap created_id (update_resolutions (run (__init__ iou_thr sel mthr) frames) dets t)
       /\ next_object_id (update (run (__init__ iou_thr sel mthr) frames) dets t)
          = next_object_id (run (__init__ iou_thr sel mthr) frames)
            + Z.of_nat (length (omap created_id (update_resolutions (run (__init__ iou_thr sel mthr) frames) dets t)))
       /\ Forall (fun e =>
                    exists o',
                      dict_get e.1 (tracked_objects (update (run (__init__ iou_thr sel mthr) frames) dets t)) = Some o'
                      /\ obj_id o' = obj_id e.2 /\ obj_label o' = obj_label e.2
                      /\ first_seen o' = first_seen e.2
                      /\ (missing e.2 = true -> o' = e.2))
            (tracked_objects (run (__init__ iou_thr sel mthr) frames))
       /\ Forall (fun n =>
                    exists o',
                      dict_get n (tracked_objects (update (run (__init__ iou_thr sel mthr) frames) dets t)) = Some o'
                      /\ obj_id o' = n /\ first_seen o' = t
                      /\ missing o' = false)
            (omap created_id (update_resolutions (run (__init__ iou_thr sel mthr) frames) dets t)))
  /\ (forall pre det post t,
       Forall (fun d => det_label d ∉ selected_objects (run (__init__ iou_thr sel mthr) frames)) pre ->
       det_label det ∈ selected_objects (run (__init__ iou_thr sel mthr) frames) ->
       Forall (fun e => ~ candidate (run (__init__ iou_thr sel mthr) frames) (det_bbox det) (det_label det) e.2)
         (tracked_objects (run (__init__ iou_thr sel mthr) frames)) ->
       (exists rest,
          update_resolutions (run (__init__ iou_thr sel mthr) frames) (pre ++ det :: post) t
          = replicate (length pre) Skipped ++ Created (next_object_id (run (__init__ iou_thr sel mthr) frames)) :: rest)
       /\ exists o',
            dict_get (next_object_id (run (__init__ iou_thr sel mthr) frames))
              (tracked_objects (update (run (__init__ iou_thr sel mthr) frames) (pre ++ det :: post) t)) = Some o'
            /\ obj_id o' = next_object_id (run (__init__ iou_thr sel mthr) frames)
            /\ obj_label o' = det_label det
            /\ first_seen o' = t).
Proof.
  set (tr := (run (__init__ iou_thr sel mthr) frames)).
  assert (tracker_inv tr) as Hinv by apply run_inv, init_inv.
  pose proof Hinv as [[Hkeys Hnext] Hwf].
  split; [done|]. split; [|split; [done|split; [|split]]].
  - eapply Forall_impl; [exact Hwf|]. by intros e [He _].
  - intros Hnil. rewrite Hnext, Hnil. done.
  - intros dets t.
    assert (keys (tracked_objects (update tr dets t))
            = keys (tracked_objects tr)
              ++ omap created_id (update_resolutions tr dets t)) as Hk.
    { rewrite update_unfold. cbn zeta.
      cbn [tracked_objects set_tracked_objects]. rewrite keys_age.
      rewrite detection_loop_keys_created
        by (by apply init_first_frame_time_inv).
      done. }
    split; [|split; [done|split; [|split]]].
    + apply (created_ids_consecutive t dets (init_first_frame_time t tr, ∅)).
    + destruct (update_inv tr dets t Hinv) as [[_ Hnext'] _].
      rewrite Hnext', Hnext. apply (f_equal length) in Hk.
      unfold keys in Hk. rewrite length_app, !length_fmap in Hk.
      rewrite Hk. lia.
    + by apply update_keeps_records.
    + by apply update_stores_created.
  - intros pre det post t Hpre Hdet Hnone.
    set (st0 := (init_first_frame_time t tr, (∅ : gset Z))).
    destruct (resolutions_skipped t pre (det :: post) st0 Hpre) as [Hrs Hloop].
    assert (resolve st0.1 det = Created (next_object_id tr)) as Hres.
    { unfold resolve.
      rewrite bool_decide_eq_false_2 by (intros H; by apply H).
      unfold _find_matching_object. rewrite scan_objects_none; [done|].
      by apply (non_candidates_spec tr). }
    split.
    + eexists. unfold update_resolutions. fold st0. rewrite Hrs.
      cbn [resolutions]. by rewrite Hres.
    + set (st1 := process_detection t st0 det).
      assert (tracker_inv st1.1) as Hinv1.
      { apply process_detection_inv. by apply init_first_frame_time_inv. }
      assert (dict_get (next_object_id tr) (tracked_objects st1.1)
              = Some (new_object (next_object_id tr) (det_label det)
                        (det_bbox det) t)) as Hnew.
      { unfold st1, process_detection, st0. unfold st0 in Hres.
        cbn [fst] in Hres. rewrite Hres.
        cbn [fst tracked_objects init_first_frame_time].
        by rewrite dict_get_set, decide_True. }
      destruct (detection_loop_identity t post st1 _ _ Hinv1 Hnew)
        as (o1 & Ho1 & Hid).
      injection Hid as Hid1 Hid2 Hid3. cbn in Hid1, Hid2, Hid3.
      rewrite update_unfold. cbn zeta.
      cbn [tracked_objects set_tracked_objects]. fold st0. rewrite Hloop.
      change (detection_loop t st0 (det :: post))
        with (detection_loop t st1 post).
      rewrite dict_get_age, Ho1. cbn [fmap option_fmap option_map].
      eexists. split; [done|].
      destruct (age_object_identity
                  (missing_threshold (detection_loop t st1 post).1)
                  (detection_loop t st1 post).2 (next_object_id tr) o1)
        as (-> & -> & ->). done.
Qed.

Lemma ids_sequential_never_deleted_witness :
  Forall (fun d => det_label d ∉ selected_objects (run demo_tracker []))
    [mkDetection box_a "dog"]
  /\ (det_label (car box_a) ∈ selected_objects (run demo_tracker []))
  /\ Forall (fun e => ~ candidate (run demo_tracker [])
                        (det_bbox (car box_a)) (det_label (car box_a)) e.2)
       (tracked_objects (run demo_tracker []))
  /\ (exists rest,
        update_resolutions (run demo_tracker [])
          ([mkDetection box_a "dog"] ++ car box_a :: [car box_far]) 0
        = replicate (length [mkDetection box_a "dog"]) Skipped
          ++ Created 1 :: rest)
  /\ exists o',
       dict_get 1
         (tracked_objects
            (update (run demo_tracker [])
               ([mkDetection box_a "dog"] ++ car box_a :: [car box_far]) 0))
       = Some o'
       /\ obj_id o' = 1 /\ obj_label o' = "car"%string /\ first_seen o' = 0%Q.
Proof.
  assert (Forall (fun d => det_label d ∉ selected_objects (run demo_tracker []))
            [mkDetection box_a "dog"]) as H1
    by (repeat constructor; apply (bool_decide_unpack _); vm_compute; exact I).
  assert (det_label (car box_a) ∈ selected_objects (run demo_tracker [])) as H2
    by (apply (bool_decide_unpack _); vm_compute; exact I).
  assert (Forall (fun e => ~ candidate (run demo_tracker [])
                             (det_bbox (car box_a)) (det_label (car box_a)) e.2)
            (tracked_objects (run demo_tracker []))) as H3 by constructor.
  split; [exact H1|]. split; [exact H2|]. split; [exact H3|].
  exact (proj2 (proj2 (proj2 (proj2 (proj2
           (ids_sequential_never_deleted (1 # 2) (Some ["car"%string]) 2 [])))))
           [mkDetection box_a "dog"] (car box_a) [car box_far] 0%Q H1 H2 H3).
Defined.
